(** * Boron isotope partitioning model (inorg_b): a shallow embedding

    The Python sources [inorg_b/helpers.py] and [inorg_b/model.py] are
    written against duck-typed numbers: the same function runs on plain
    Python floats, on numpy float64 scalars and arrays, and on pandas
    Series.  The embedding follows that: every source function is defined
    once, over a class [PyNum] of numeric operations, and is run on three
    instances:
    - [R]: exact real arithmetic (Rocq reals), for algebraic properties;
    - [f64]: numpy float64 without rounding: finite reals, signed
      infinities and NaN, with IEEE rules for the special values;
    - [pyfloat]: plain Python floats, where a division by zero raises
      [ZeroDivisionError].
    Rounding and overflow are not modelled.  numpy arrays aligned on the
    sample index are modelled as lists of rows (one record per sample); the
    element-wise operations of numpy are then applied row by row. *)

From Stdlib Require Import Strings.String Reals Lra Lia List Bool.
Import ListNotations.

Open Scope R_scope.

(** ** Numbers as the code uses them *)

Class PyNum (T : Type) := {
  num : R -> T;              (* a numeric literal *)
  nadd : T -> T -> T;
  nsub : T -> T -> T;
  nmul : T -> T -> T;
  ndiv : T -> T -> T;
  nneg : T -> T;             (* unary minus *)
  npow10 : T -> T;           (* 10 ** x *)
  nsqrt : T -> T;            (* x ** (1/2), x ** 0.5 *)
  nmax : T -> T -> T;        (* the reduction step of np.max *)
  nmin : T -> T -> T         (* the reduction step of np.min *)
}.

Arguments num {T _} _%_R.

Declare Scope py_scope.
Delimit Scope py_scope with py.
Notation "x + y" := (nadd x y) : py_scope.
Notation "x - y" := (nsub x y) : py_scope.
Notation "x * y" := (nmul x y) : py_scope.
Notation "x / y" := (ndiv x y) : py_scope.
Notation "- x" := (nneg x) : py_scope.

(** [x ** 2] *)
Definition sq {T} `{PyNum T} (x : T) : T := nmul x x.

(** *** Exact reals *)

#[export] Instance R_PyNum : PyNum R := {
  num := fun r => r;
  nadd := Rplus;
  nsub := Rminus;
  nmul := Rmult;
  ndiv := Rdiv;
  nneg := Ropp;
  npow10 := Rpower 10;
  nsqrt := sqrt;
  nmax := Rmax;
  nmin := Rmin
}.

(** *** numpy float64 (no rounding) *)

Inductive sgn := Neg | Zero | Pos.

Definition rsign (r : R) : sgn :=
  match total_order_T r 0 with
  | inleft (left _) => Neg
  | inleft (right _) => Zero
  | inright _ => Pos
  end.

(** [Inf true] is +inf, [Inf false] is -inf.  The sign of zero is not
    tracked: a zero divisor counts as +0.0. *)
Inductive f64 := Fin (r : R) | Inf (pos : bool) | NaN.

Definition f64_neg (x : f64) : f64 :=
  match x with
  | Fin a => Fin (- a)
  | Inf s => Inf (negb s)
  | NaN => NaN
  end.

Definition f64_add (x y : f64) : f64 :=
  match x, y with
  | NaN, _ | _, NaN => NaN
  | Fin a, Fin b => Fin (a + b)
  | Fin _, Inf s | Inf s, Fin _ => Inf s
  | Inf s, Inf t => if Bool.eqb s t then Inf s else NaN
  end.

Definition f64_sub (x y : f64) : f64 := f64_add x (f64_neg y).

(** an infinity of sign [s] scaled by a finite factor of sign [g] *)
Definition inf_scale (g : sgn) (s : bool) : f64 :=
  match g with
  | Pos => Inf s
  | Neg => Inf (negb s)
  | Zero => NaN
  end.

Definition f64_mul (x y : f64) : f64 :=
  match x, y with
  | NaN, _ | _, NaN => NaN
  | Fin a, Fin b => Fin (a * b)
  | Fin a, Inf s | Inf s, Fin a => inf_scale (rsign a) s
  | Inf s, Inf t => Inf (Bool.eqb s t)
  end.

Definition f64_div (x y : f64) : f64 :=
  match x, y with
  | NaN, _ | _, NaN => NaN
  | Fin a, Fin b =>
      match rsign b with
      | Zero => inf_scale (rsign a) true
      | _ => Fin (a / b)
      end
  | Fin _, Inf _ => Fin 0
  | Inf s, Fin b =>
      match rsign b with
      | Neg => Inf (negb s)
      | _ => Inf s
      end
  | Inf _, Inf _ => NaN
  end.

Definition f64_pow10 (x : f64) : f64 :=
  match x with
  | Fin a => Fin (Rpower 10 a)
  | Inf true => Inf true
  | Inf false => Fin 0
  | NaN => NaN
  end.

Definition f64_sqrt (x : f64) : f64 :=
  match x with
  | Fin a => match rsign a with Neg => NaN | _ => Fin (sqrt a) end
  | Inf true => Inf true
  | Inf false => NaN
  | NaN => NaN
  end.

Definition f64_max (x y : f64) : f64 :=
  match x, y with
  | NaN, _ | _, NaN => NaN
  | Fin a, Fin b => Fin (Rmax a b)
  | Inf true, _ | _, Inf true => Inf true
  | Inf false, z | z, Inf false => z
  end.

Definition f64_min (x y : f64) : f64 :=
  match x, y with
  | NaN, _ | _, NaN => NaN
  | Fin a, Fin b => Fin (Rmin a b)
  | Inf false, _ | _, Inf false => Inf false
  | Inf true, z | z, Inf true => z
  end.

#[export] Instance f64_PyNum : PyNum f64 := {
  num := Fin;
  nadd := f64_add;
  nsub := f64_sub;
  nmul := f64_mul;
  ndiv := f64_div;
  nneg := f64_neg;
  npow10 := f64_pow10;
  nsqrt := f64_sqrt;
  nmax := f64_max;
  nmin := f64_min
}.

(** *** Plain Python floats

    A division by zero raises [ZeroDivisionError], which propagates out
    of the enclosing expression.  [x ** 0.5] of a negative float is a
    complex number in Python; complex values are outside this model and
    are kept as the marker [PyComplex]. *)

Inductive pyfloat := PyOk (r : R) | PyZeroDivisionError | PyComplex.

Definition py_lift2 (f : R -> R -> pyfloat) (x y : pyfloat) : pyfloat :=
  match x with
  | PyOk a => match y with PyOk b => f a b | e => e end
  | e => e
  end.

Definition py_lift1 (f : R -> pyfloat) (x : pyfloat) : pyfloat :=
  match x with PyOk a => f a | e => e end.

Definition py_div (a b : R) : pyfloat :=
  match rsign b with
  | Zero => PyZeroDivisionError
  | _ => PyOk (a / b)
  end.

#[export] Instance pyfloat_PyNum : PyNum pyfloat := {
  num := PyOk;
  nadd := py_lift2 (fun a b => PyOk (a + b));
  nsub := py_lift2 (fun a b => PyOk (a - b));
  nmul := py_lift2 (fun a b => PyOk (a * b));
  ndiv := py_lift2 py_div;
  nneg := py_lift1 (fun a => PyOk (- a));
  npow10 := py_lift1 (fun a => PyOk (Rpower 10 a));
  nsqrt := py_lift1 (fun a => match rsign a with Neg => PyComplex | _ => PyOk (sqrt a) end);
  nmax := py_lift2 (fun a b => PyOk (Rmax a b));
  nmin := py_lift2 (fun a b => PyOk (Rmin a b))
}.

(** ** numpy reductions over an array (a list) *)

Section Numpy.
Context {T : Type} `{PyNum T}.
Local Open Scope py_scope.

(** [np.sum]: the sum of the elements, [0.] for an empty array *)
Definition np_sum (xs : list T) : T := fold_left nadd xs (num 0).

(** [x.mean()]: sum over length (NaN for an empty float64 array) *)
Definition np_mean (xs : list T) : T := np_sum xs / num (INR (length xs)).

(** [np.max] and [np.min]: [None] is the ValueError raised on an empty array *)
Definition np_max (xs : list T) : option T :=
  match xs with [] => None | x :: r => Some (fold_left nmax r x) end.

Definition np_min (xs : list T) : option T :=
  match xs with [] => None | x :: r => Some (fold_left nmin r x) end.

(** [np.ptp]: max - min *)
Definition np_ptp (xs : list T) : option T :=
  match np_max xs, np_min xs with
  | Some a, Some b => Some (a - b)
  | _, _ => None
  end.

End Numpy.

(** ** inorg_b/helpers.py *)

Module Helpers.
Section Helpers.
Context {T : Type} `{PyNum T}.
Local Open Scope py_scope.

(** the default [SRM_ratio]: NIST951 11B/10B *)
Definition NIST951 : T := num 4.04367.

(** the default [alpha] of [sol_B_iso] *)
Definition alpha_default : T := num 1.026.

Definition d11_2_A11 (d11 SRM_ratio : T) : T :=
  SRM_ratio * (d11 / num 1000 + num 1) / (SRM_ratio * (d11 / num 1000 + num 1) + num 1).

Definition A11_2_d11 (A11 SRM_ratio : T) : T :=
  ((A11 / (num 1 - A11)) / SRM_ratio - num 1) * num 1000.

Definition A11_2_R11 (A11 : T) : T := A11 / (num 1 - A11).

Definition d11_2_R11 (d11 SRM_ratio : T) : T := (d11 / num 1000 + num 1) * SRM_ratio.

Definition R11_2_d11 (R11 SRM_ratio : T) : T := (R11 / SRM_ratio - num 1) * num 1000.

Definition R11_2_A11 (R11 : T) : T := R11 / (num 1 + R11).

(** [sol_B_iso(BT, BO4, d11B_total, alpha)], returns [(d11BO4, d11BO3)] *)
Definition sol_B_iso (BT BO4 d11B_total alpha : T) : T * T :=
  let eps := num 1000 * (alpha - num 1) in
  let BO3 := BT - BO4 in
  let d11BO4 := (d11B_total * BT - eps * BO3) / (BO4 + alpha * BO3) in
  let d11BO3 := d11BO4 + eps in
  (d11BO4, d11BO3).

(** the implied dissociation constant [Kbval] of [sol_B_iso_Rae2018] *)
Definition Rae2018_Kbval (pH BO4 BT : T) : T :=
  let Hval := npow10 (- pH) in
  BO4 * Hval / (BT - BO4).

(** the root [RB4] computed by [sol_B_iso_Rae2018] *)
Definition Rae2018_RB4 (pH BO4 BT alpha d11BT : T) : T :=
  let R_BT := d11_2_R11 d11BT NIST951 in
  let Hval := npow10 (- pH) in
  let Kbval := BO4 * Hval / (BT - BO4) in
  (nsqrt (sq Hval * sq R_BT + num 2 * sq Hval * R_BT * alpha + sq Hval * sq alpha
          + num 2 * Hval * Kbval * sq R_BT * alpha
          - num 2 * Hval * Kbval * R_BT * sq alpha + num 8 * Hval * Kbval * R_BT * alpha
          - num 2 * Hval * Kbval * R_BT + num 2 * Hval * Kbval * alpha
          + sq Kbval * sq R_BT * sq alpha + num 2 * sq Kbval * R_BT * alpha + sq Kbval)
   - Hval * alpha - Kbval + Hval * R_BT + Kbval * R_BT * alpha)
  / (num 2 * alpha * (Hval + Kbval)).

(** [sol_B_iso_Rae2018(pH, BO4, BT, alpha, d11BT)], returns [(d11BO4, d11BO3)] *)
Definition sol_B_iso_Rae2018 (pH BO4 BT alpha d11BT : T) : T * T :=
  let RB4 := Rae2018_RB4 pH BO4 BT alpha d11BT in
  let RB3 := RB4 * alpha in
  (R11_2_d11 RB4 NIST951, R11_2_d11 RB3 NIST951).

(** the tail of [extract_model_vars]: the error arrays normalised to their
    mean, [(err / err.mean())**0.5] *)
Definition extract_err_norm (LambdaB_err EpsilonB_err : list T) : list T * list T :=
  let LambdaB_err_norm := map (fun e => nsqrt (e / np_mean LambdaB_err)) LambdaB_err in
  let EpsilonB_err_norm := map (fun e => nsqrt (e / np_mean EpsilonB_err)) EpsilonB_err in
  (LambdaB_err_norm, EpsilonB_err_norm).

End Helpers.
End Helpers.

(** ** inorg_b/model.py *)

Module Model.
Import Helpers.

(** one sample of the aligned input arrays of [fitfn]; the error fields
    hold [1] for every sample when the argument is left at its default *)
Record row (T : Type) := mkRow {
  Rp : T; rL3 : T; rL4 : T; B_DIC : T; ABO3 : T; ABO4 : T; dBO4 : T;
  LambdaB : T; EpsilonB : T; LambdaB_err : T; EpsilonB_err : T
}.
Arguments mkRow {T}.
Arguments Rp {T}. Arguments rL3 {T}. Arguments rL4 {T}. Arguments B_DIC {T}.
Arguments ABO3 {T}. Arguments ABO4 {T}. Arguments dBO4 {T}.
Arguments LambdaB {T}. Arguments EpsilonB {T}.
Arguments LambdaB_err {T}. Arguments EpsilonB_err {T}.

Section Model.
Context {T : Type} `{PyNum T}.
Local Open Scope py_scope.

Definition rS_calc (Rb Rp Kf rL Kb : T) : T :=
  let Rf := Rp + Rb in
  (Kf * rL * Rf) / (Rb * Kb + Rp).

(** [predfn], returns [(KB, DdBcal)] *)
Definition predfn (Kb3 Kf3 Kb4 Kf4 logRb Rp rL3 rL4 B_DIC ABO3 ABO4 dBO4 : T) : T * T :=
  let Rb := npow10 logRb in
  let rS4 := rS_calc Rb Rp Kf4 rL4 Kb4 in
  let rS3 := rS_calc Rb Rp Kf3 rL3 Kb3 in
  let rSB := rS3 + rS4 in
  let KB := rSB / B_DIC in
  let ABcal := (ABO3 * rS3 + ABO4 * rS4) / rSB in
  let DdBcal := A11_2_d11 ABcal NIST951 - dBO4 in
  (KB, DdBcal).

(** [fitfn(p, ..., LambdaB_bias)]: [p = (Kb3, Kf3, Kb4, Kf4, logRb)];
    [None] as result is the ValueError of [np.ptp] on empty arrays *)
Definition fitfn (p : T * T * T * T * T) (rows : list (row T))
    (LambdaB_bias : option T) : option T :=
  let '(Kb3, Kf3, Kb4, Kf4, logRb) := p in
  let bias :=
    match LambdaB_bias with
    | Some b => Some b
    | None =>
        match np_ptp (map EpsilonB rows), np_ptp (map LambdaB rows) with
        | Some e, Some l => Some (e / l)
        | _, _ => None
        end
    end in
  match bias with
  | None => None
  | Some LambdaB_bias =>
      let calc r := predfn Kb3 Kf3 Kb4 Kf4 logRb (Rp r) (rL3 r) (rL4 r)
                      (B_DIC r) (ABO3 r) (ABO4 r) (dBO4 r) in
      let Lam_err := LambdaB_bias *
        np_sum (map (fun r => sq (fst (calc r) - LambdaB r) / sq (LambdaB_err r)) rows) in
      let Eps_err :=
        np_sum (map (fun r => sq (snd (calc r) - EpsilonB r) / sq (EpsilonB_err r)) rows) in
      Some (Lam_err / num 2 + Eps_err / num 2)
  end.

(** [predfn_BO4fractionated] *)
Definition predfn_BO4fractionated (Kb3 Kf3 Kb4 Kf4 logRb eps4 Rp rL3 rL4 B_DIC dBO3 dBO4 : T)
    : T * T :=
  let Rb := npow10 logRb in
  let rS4 := rS_calc Rb Rp Kf4 rL4 Kb4 in
  let rS3 := rS_calc Rb Rp Kf3 rL3 Kb3 in
  let rSB := rS3 + rS4 in
  let KB := rSB / B_DIC in
  let ABcal := (d11_2_A11 dBO3 NIST951 * rS3 + d11_2_A11 (dBO4 + eps4) NIST951 * rS4) / rSB in
  let DdBcal := A11_2_d11 ABcal NIST951 - dBO4 in
  (KB, DdBcal).

(** [predfn_fractionated] *)
Definition predfn_fractionated (Kb3 Kf3 Kb4 Kf4 logRb eps3 eps4 Rp rL3 rL4 B_DIC dBO3 dBO4 : T)
    : T * T :=
  let Rb := npow10 logRb in
  let rS4 := rS_calc Rb Rp Kf4 rL4 Kb4 in
  let rS3 := rS_calc Rb Rp Kf3 rL3 Kb3 in
  let rSB := rS3 + rS4 in
  let KB := rSB / B_DIC in
  let ABcal := (d11_2_A11 (dBO3 + eps3) NIST951 * rS3
                + d11_2_A11 (dBO4 + eps4) NIST951 * rS4) / rSB in
  let DdBcal := A11_2_d11 ABcal NIST951 - dBO4 in
  (KB, DdBcal).

End Model.
End Model.

(** ** inorg_b/model.py: the single-species and fractionated variants *)

(** the inputs of [fitfn_single_species], one record per sample *)
Module Single.
Import Helpers Model.

Record row (T : Type) := mkRow {
  Rp : T; rL : T; B_DIC : T; dB : T; dBO4 : T;
  LambdaB : T; EpsilonB : T; LambdaB_err : T; EpsilonB_err : T
}.
Arguments mkRow {T}.
Arguments Rp {T}. Arguments rL {T}. Arguments B_DIC {T}. Arguments dB {T}.
Arguments dBO4 {T}. Arguments LambdaB {T}. Arguments EpsilonB {T}.
Arguments LambdaB_err {T}. Arguments EpsilonB_err {T}.

Section Single.
Context {T : Type} `{PyNum T}.
Local Open Scope py_scope.

(** [predfn_single_species], returns [(KB, DdBcal)] *)
Definition predfn_single_species (Kb Kf logRb epsilon Rp rL B_DIC dB dBO4 : T) : T * T :=
  let Rb := npow10 logRb in
  let rSB := rS_calc Rb Rp Kf rL Kb in
  let KB := rSB / B_DIC in
  let dBcal := dB + epsilon in
  let DdBcal := dBcal - dBO4 in
  (KB, DdBcal).

(** [fitfn_single_species(p, ..., LambdaB_bias)]: [p = (Kb, Kf, logRb, epsilon)] *)
Definition fitfn_single_species (p : T * T * T * T) (rows : list (row T))
    (LambdaB_bias : option T) : option T :=
  let '(Kb, Kf, logRb, epsilon) := p in
  let bias :=
    match LambdaB_bias with
    | Some b => Some b
    | None =>
        match np_ptp (map EpsilonB rows), np_ptp (map LambdaB rows) with
        | Some e, Some l => Some (e / l)
        | _, _ => None
        end
    end in
  match bias with
  | None => None
  | Some LambdaB_bias =>
      let calc r := predfn_single_species Kb Kf logRb epsilon (Rp r) (rL r)
                      (B_DIC r) (dB r) (dBO4 r) in
      let Lam_err := LambdaB_bias *
        np_sum (map (fun r => sq (fst (calc r) - LambdaB r) / sq (LambdaB_err r)) rows) in
      let Eps_err :=
        np_sum (map (fun r => sq (snd (calc r) - EpsilonB r) / sq (EpsilonB_err r)) rows) in
      Some (Lam_err / num 2 + Eps_err / num 2)
  end.

End Single.
End Single.

(** the inputs of [fitfn_BO4fractionated] and [fitfn_fractionated], one
    record per sample *)
Module Frac.
Import Helpers Model.

Record row (T : Type) := mkRow {
  Rp : T; rL3 : T; rL4 : T; B_DIC : T; dBO3 : T; dBO4 : T;
  LambdaB : T; EpsilonB : T; LambdaB_err : T; EpsilonB_err : T
}.
Arguments mkRow {T}.
Arguments Rp {T}. Arguments rL3 {T}. Arguments rL4 {T}. Arguments B_DIC {T}.
Arguments dBO3 {T}. Arguments dBO4 {T}. Arguments LambdaB {T}. Arguments EpsilonB {T}.
Arguments LambdaB_err {T}. Arguments EpsilonB_err {T}.

Section Frac.
Context {T : Type} `{PyNum T}.
Local Open Scope py_scope.

(** [fitfn_BO4fractionated(p, ...)]: [p = (Kb3, Kf3, Kb4, Kf4, logRb, eps4)] *)
Definition fitfn_BO4fractionated (p : T * T * T * T * T * T) (rows : list (row T))
    (LambdaB_bias : option T) : option T :=
  let '(Kb3, Kf3, Kb4, Kf4, logRb, eps4) := p in
  let bias :=
    match LambdaB_bias with
    | Some b => Some b
    | None =>
        match np_ptp (map EpsilonB rows), np_ptp (map LambdaB rows) with
        | Some e, Some l => Some (e / l)
        | _, _ => None
        end
    end in
  match bias with
  | None => None
  | Some LambdaB_bias =>
      let calc r := predfn_BO4fractionated Kb3 Kf3 Kb4 Kf4 logRb eps4 (Rp r) (rL3 r)
                      (rL4 r) (B_DIC r) (dBO3 r) (dBO4 r) in
      let Lam_err := LambdaB_bias *
        np_sum (map (fun r => sq (fst (calc r) - LambdaB r) / sq (LambdaB_err r)) rows) in
      let Eps_err :=
        np_sum (map (fun r => sq (snd (calc r) - EpsilonB r) / sq (EpsilonB_err r)) rows) in
      Some (Lam_err / num 2 + Eps_err / num 2)
  end.

(** [fitfn_fractionated(p, ...)]: [p = (Kb3, Kf3, Kb4, Kf4, logRb, eps3, eps4)] *)
Definition fitfn_fractionated (p : T * T * T * T * T * T * T) (rows : list (row T))
    (LambdaB_bias : option T) : option T :=
  let '(Kb3, Kf3, Kb4, Kf4, logRb, eps3, eps4) := p in
  let bias :=
    match LambdaB_bias with
    | Some b => Some b
    | None =>
        match np_ptp (map EpsilonB rows), np_ptp (map LambdaB rows) with
        | Some e, Some l => Some (e / l)
        | _, _ => None
        end
    end in
  match bias with
  | None => None
  | Some LambdaB_bias =>
      let calc r := predfn_fractionated Kb3 Kf3 Kb4 Kf4 logRb eps3 eps4 (Rp r) (rL3 r)
                      (rL4 r) (B_DIC r) (dBO3 r) (dBO4 r) in
      let Lam_err := LambdaB_bias *
        np_sum (map (fun r => sq (fst (calc r) - LambdaB r) / sq (LambdaB_err r)) rows) in
      let Eps_err :=
        np_sum (map (fun r => sq (snd (calc r) - EpsilonB r) / sq (EpsilonB_err r)) rows) in
      Some (Lam_err / num 2 + Eps_err / num 2)
  end.

(** the sample passed to [fitfn] by the abundance conversion of
    [extract_model_vars]: [ABO3 = d11_2_A11(d11BO3)], [ABO4 = d11_2_A11(d11BO4)] *)
Definition extract_abundances (r : row T) : Model.row T :=
  Model.mkRow (Rp r) (rL3 r) (rL4 r) (B_DIC r)
    (d11_2_A11 (dBO3 r) NIST951) (d11_2_A11 (dBO4 r) NIST951) (dBO4 r)
    (LambdaB r) (EpsilonB r) (LambdaB_err r) (EpsilonB_err r).

End Frac.
End Frac.

(** ** inorg_b/helpers.py: the precipitation-rate branch of [extract_model_vars] *)

Module Rate.

(** Python's [sub in s] for strings *)
Fixpoint str_contains (sub s : string) : bool :=
  String.prefix sub s ||
  match s with
  | EmptyString => false
  | String _ s' => str_contains sub s'
  end.

(** [np.log10] of a positive float *)
Definition log10 (x : R) : R := ln x / ln 10.

(** [(logRp, Rp)] from the values of the column [Rvar] (given by its last
    level [Rvar[-1]]): a log rate is exponentiated, a linear rate is logged *)
Definition extract_rate (Rvar_last : string) (values : list R) : list R * list R :=
  if str_contains "log" Rvar_last then
    let logRp := values in
    let Rp := map (Rpower 10) logRp in
    (logRp, Rp)
  else
    let Rp := values in
    let logRp := map log10 Rp in
    (logRp, Rp).

End Rate.

(** ** inorg_b/load.py: the solution isotope and epsilon steps, per sample

    One sample (a row of the data frame) holds the phreeqc speciation
    columns [(database, 'pH')], [(database, 'B')], [(database, 'BOH4')],
    [(database, 'BOH4_free')] and the solution columns
    [('Solution', 'd11B (permil vs NIST951)')] and, when the frame has it,
    [('Solution', 'd11B_eprop (permil vs NIST951)')]; an absent column is
    [None]. *)
Module Load.
Import Helpers.

Record sol_row (T : Type) := mkSolRow {
  pH : T; B : T; BOH4 : T; BOH4_free : T; d11B : T; d11B_eprop : option T
}.
Arguments mkSolRow {T}.
Arguments pH {T}. Arguments B {T}. Arguments BOH4 {T}. Arguments BOH4_free {T}.
Arguments d11B {T}. Arguments d11B_eprop {T}.

(** the four solution columns written by [calc_sol_iso] *)
Record sol_iso (T : Type) := mkSolIso {
  d11BO3 : T; d11BO4 : T; d11BO3_eprop : T; d11BO4_eprop : T
}.
Arguments mkSolIso {T}.
Arguments d11BO3 {T}. Arguments d11BO4 {T}.
Arguments d11BO3_eprop {T}. Arguments d11BO4_eprop {T}.

Section Load.
Context {T : Type} `{PyNum T}.
Local Open Scope py_scope.

(** [calc_sol_iso(rd, database, borate_mode, alpha)]: the [_eprop] columns
    are assigned after the [if], from the last computed pair *)
Definition calc_sol_iso (borate_mode : string) (alpha : T) (r : sol_row T) : sol_iso T :=
  let BO4_mode := if String.eqb borate_mode "free" then BOH4_free r else BOH4 r in
  let '(d11BO4_, d11BO3_) := sol_B_iso_Rae2018 (pH r) BO4_mode (B r) alpha (d11B r) in
  let '(d11BO4e, d11BO3e) :=
    match d11B_eprop r with
    | Some e => sol_B_iso_Rae2018 (pH r) BO4_mode (B r) alpha e
    | None => (d11BO4_, d11BO3_)
    end in
  mkSolIso d11BO3_ d11BO4_ d11BO3e d11BO4e.

(** [calc_epsilon(rd)] for one sample: the solid [d11B] and optional
    [d11B_eprop], the solution [d11BO4] and optional [d11BO4_eprop];
    returns [EpsilonB] and [EpsilonB_eprop] ([None]: column not written) *)
Definition calc_epsilon (solid_d11B : T) (solid_d11B_eprop : option T)
    (d11BO4 : T) (d11BO4_eprop : option T) : T * option T :=
  (solid_d11B - d11BO4,
   match solid_d11B_eprop, d11BO4_eprop with
   | Some s, Some e => Some (s - e)
   | _, _ => None
   end).

(** [calc_lambda(rd, numerator, denom, database)] for one sample: the solid
    [B/Ca] and optional [B/Ca_eprop], the solution species [numerator] and
    [denom]; returns [LambdaB] and [LambdaB_eprop] ([None]: column not
    written) *)
Definition calc_lambda (BCa : T) (BCa_eprop : option T) (numerator denom : T) : T * option T :=
  ((num 1e-3 * BCa) / (numerator / denom),
   match BCa_eprop with
   | Some e => Some ((num 1e-3 * e) / (numerator / denom))
   | None => None
   end).

(** the two steps as [processed] runs them on a sample: [calc_sol_iso]
    has always written [d11BO4_eprop] when [calc_epsilon] looks for it *)
Definition sol_iso_epsilon (borate_mode : string) (alpha : T) (r : sol_row T)
    (solid_d11B : T) (solid_d11B_eprop : option T) : sol_iso T * (T * option T) :=
  let s := calc_sol_iso borate_mode alpha r in
  (s, calc_epsilon solid_d11B solid_d11B_eprop (d11BO4 s) (Some (d11BO4_eprop s))).

End Load.
End Load.

(** ** inorg_b/phreeqpy_fns.py: the summary of [calc_cb]

    [dat] is the pandas Series built by [run_phreeqc] from phreeqc's
    selected output: labels and float64 values.  A Series is an
    association list; [s[k]] is [getitem] ([None] is the KeyError of a
    missing label) and [s[k] = v] is [setitem], which replaces the value of
    an existing label and appends a new label at the end. *)
Module Phreeqc.

Definition series := list (string * f64).

Fixpoint getitem (s : series) (k : string) : option f64 :=
  match s with
  | [] => None
  | (k', v) :: t => if String.eqb k k' then Some v else getitem t k
  end.

Fixpoint setitem (s : series) (k : string) (v : f64) : series :=
  match s with
  | [] => [(k, v)]
  | (k', v') :: t => if String.eqb k k' then (k', v) :: t else (k', v') :: setitem t k v
  end.

(** [x != 0] on a float64 ([nan != 0] is [True]) *)
Definition f64_ne0 (x : f64) : bool :=
  match x with
  | Fin a => match rsign a with Zero => false | _ => true end
  | _ => true
  end.

Definition obind {A B : Type} (o : option A) (f : A -> option B) : option B :=
  match o with Some a => f a | None => None end.

Notation "x <- e ;; k" := (obind e (fun x => k)) (at level 61, e at next level, right associativity).

Local Open Scope string_scope.

(** [pd.Series(index=['C', 'CO2', 'HCO3', 'CO3', 'B', 'BOH3', 'BOH4'])]: NaN values *)
Definition out0 : series :=
  [("C", NaN); ("CO2", NaN); ("HCO3", NaN); ("CO3", NaN); ("B", NaN);
   ("BOH3", NaN); ("BOH4", NaN)].

(** the [summ=True] branch of [calc_cb], from [dat] on *)
Definition calc_cb_summary (dat : series) : option series :=
  let out := out0 in
  (* carbon species *)
  c <- getitem dat "C(mol/kgw)" ;;
  let out := setitem out "C" c in
  mco2 <- getitem dat "m_CO2(mol/kgw)" ;;
  co2 <- (if f64_ne0 mco2 then Some mco2 else getitem dat "m_H2CO3(mol/kgw)") ;;
  let out := setitem out "CO2" co2 in
  hco3 <- getitem dat "m_HCO3-(mol/kgw)" ;;
  let out := setitem out "HCO3" hco3 in
  co3 <- getitem dat "m_CO3-2(mol/kgw)" ;;
  let out := setitem out "CO3" co3 in
  (* boron species *)
  b <- getitem dat "B(mol/kgw)" ;;
  let out := setitem out "B" b in
  mboh3 <- getitem dat "m_B(OH)3(mol/kgw)" ;;
  boh3 <- (if f64_ne0 mboh3 then Some mboh3 else getitem dat "m_H3BO3(mol/kgw)") ;;
  let out := setitem out "BOH3" boh3 in
  mboh4 <- getitem dat "m_B(OH)4-(mol/kgw)" ;;
  out <- (if f64_ne0 mboh4 then
            mboh4' <- getitem dat "m_B(OH)4-(mol/kgw)" ;;
            mcab <- getitem dat "m_CaB(OH)4+(mol/kgw)" ;;
            let out := setitem out "BOH4" (f64_add mboh4' mcab) in
            mfree <- getitem dat "m_B(OH)4-(mol/kgw)" ;;
            Some (setitem out "BOH4_free" mfree)
          else
            h2bo3 <- getitem dat "m_H2BO3-(mol/kgw)" ;;
            nah2bo3 <- getitem dat "m_NaH2BO3(mol/kgw)" ;;
            cah2bo3 <- getitem dat "m_CaH2BO3+(mol/kgw)" ;;
            let out := setitem out "BOH4" (f64_add (f64_add h2bo3 nah2bo3) cah2bo3) in
            mfree <- getitem dat "m_H2BO3-(mol/kgw)" ;;
            Some (setitem out "BOH4_free" mfree)) ;;
  (* auxiliary data *)
  ph <- getitem dat "pH" ;; let out := setitem out "pH" ph in
  temp <- getitem dat "temp(C)" ;; let out := setitem out "temp" temp in
  alk <- getitem dat "Alk(eq/kgw)" ;; let out := setitem out "alk" alk in
  sic <- getitem dat "si_Calcite" ;; let out := setitem out "SIc" sic in
  sia <- getitem dat "si_Aragonite" ;; let out := setitem out "SIa" sia in
  mu <- getitem dat "mu" ;; let out := setitem out "ion_str" mu in
  ca <- getitem dat "Ca(mol/kgw)" ;; let out := setitem out "Ca" ca in
  na <- getitem dat "Na(mol/kgw)" ;; let out := setitem out "Na" na in
  cl <- getitem dat "Cl(mol/kgw)" ;; let out := setitem out "Cl" cl in
  mg <- getitem dat "Mg(mol/kgw)" ;; let out := setitem out "Mg" mg in
  k <- getitem dat "K(mol/kgw)" ;; let out := setitem out "K" k in
  so4 <- getitem dat "S(6)(mol/kgw)" ;; let out := setitem out "SO4" so4 in
  Some out.

(** the labels of every summary, in order *)
Definition cb_labels : list string :=
  ["C"; "CO2"; "HCO3"; "CO3"; "B"; "BOH3"; "BOH4"; "BOH4_free"; "pH"; "temp";
   "alk"; "SIc"; "SIa"; "ion_str"; "Ca"; "Na"; "Cl"; "Mg"; "K"; "SO4"].

End Phreeqc.

(** * Properties *)

Import Helpers Model.

(** ** Evaluation of the float64 and Python-float instances *)

Lemma rsign_Zero (r : R) : rsign r = Zero -> r = 0.
Proof. unfold rsign; destruct (total_order_T r 0) as [[|]|]; congruence. Qed.

Lemma rsign_0 : rsign 0 = Zero.
Proof.
  unfold rsign; destruct (total_order_T 0 0) as [[|]|]; auto; lra.
Qed.

Lemma rsign_pos (r : R) : 0 < r -> rsign r = Pos.
Proof.
  intro Hr; unfold rsign; destruct (total_order_T r 0) as [[|]|]; auto; lra.
Qed.

Lemma rsign_neg (r : R) : r < 0 -> rsign r = Neg.
Proof.
  intro Hr; unfold rsign; destruct (total_order_T r 0) as [[|]|]; auto; lra.
Qed.

Lemma f64_div_fin (a b : R) : b <> 0 -> f64_div (Fin a) (Fin b) = Fin (a / b).
Proof.
  intro Hb; simpl; destruct (rsign b) eqn:E; auto.
  apply rsign_Zero in E; contradiction.
Qed.

(** a finite number divided by zero is an infinity or NaN, never a finite number *)
Lemma f64_div_zero (x : f64) :
  f64_div x (Fin 0) = NaN \/ f64_div x (Fin 0) = Inf true \/ f64_div x (Fin 0) = Inf false.
Proof.
  destruct x as [a|[|]|]; simpl; rewrite ?rsign_0; auto.
  destruct (rsign a); simpl; auto.
Qed.

Lemma py_div_zero (a : R) : py_div a 0 = PyZeroDivisionError.
Proof. unfold py_div; now rewrite rsign_0. Qed.

(** rewrite [rsign x] to [Zero] where [x] is zero by [ring] *)
Ltac rsign_zero :=
  repeat match goal with
  | |- context [rsign ?x] =>
      let E := fresh in
      assert (E : x = 0) by ring; rewrite E, rsign_0; clear E
  end.

Ltac f64_fin :=
  repeat (cbn [f64_add f64_sub f64_neg f64_mul nadd nsub nmul ndiv nneg num f64_PyNum]).

(** ** C1: the mass-balance split [sol_B_iso] *)

(** C1 (counterexample): with [BT = 2], [BO4 = 1], [d11B_total = 0] and
    [alpha = 2], the pair returned by [sol_B_iso] is [(-1000/3, 2000/3)],
    and [d11B_total * BT = 0] differs from
    [d11BO4 * BO4 + d11BO3 * (BT - BO4) = 1000/3]. *)
Lemma sol_B_iso_linear_balance_cex :
  let '(d4, d3) := sol_B_iso (T := R) 2 1 0 2 in
  d4 = - 1000 / 3 /\ d3 = 2000 / 3 /\
  0 * 2 <> d4 * 1 + d3 * (2 - 1).
Proof.
  simpl. replace (1 + 2 * (2 - 1)) with 3 by ring.
  repeat split; lra.
Qed.

(** C1 (amended): when the divisor [BO4 + alpha * (BT - BO4)] is nonzero,
    [sol_B_iso] returns [d11BO3 = d11BO4 + 1000 * (alpha - 1)], and
    [d11BO4] solves the mass balance in which BO3 carries the delta
    [alpha * d11BO4 + 1000 * (alpha - 1)]; the linear mass balance with the
    returned [d11BO3] misses by exactly [(alpha - 1) * d11BO4 * (BT - BO4)]. *)
Theorem sol_B_iso_mass_balance (BT BO4 d11B_total alpha : R)
    (Hden : BO4 + alpha * (BT - BO4) <> 0) :
  let '(d4, d3) := sol_B_iso BT BO4 d11B_total alpha in
  d3 = d4 + 1000 * (alpha - 1) /\
  d11B_total * BT = d4 * BO4 + (alpha * d4 + 1000 * (alpha - 1)) * (BT - BO4) /\
  d11B_total * BT - (d4 * BO4 + d3 * (BT - BO4)) = (alpha - 1) * d4 * (BT - BO4).
Proof.
  simpl. repeat split.
  - field. exact Hden.
  - field. exact Hden.
Qed.

Lemma sol_B_iso_mass_balance_witness :
  2 + 2 * (3 - 2) <> 0 /\
  (let '(d4, d3) := sol_B_iso (T := R) 3 2 10 2 in
   d3 = d4 + 1000 * (2 - 1) /\
   10 * 3 = d4 * 2 + (2 * d4 + 1000 * (2 - 1)) * (3 - 2) /\
   10 * 3 - (d4 * 2 + d3 * (3 - 2)) = (2 - 1) * d4 * (3 - 2)).
Proof.
  assert (H0 : 2 + 2 * (3 - 2) <> 0) by lra.
  split; [exact H0 | exact (sol_B_iso_mass_balance 3 2 10 2 H0)].
Defined.

(** ** C8: the gap of the split [sol_B_iso] *)

(** on finite float64 inputs with a nonzero divisor, [sol_B_iso] computes
    the same finite values as in exact arithmetic *)
Lemma sol_B_iso_f64_finite (BT BO4 d11B_total alpha : R)
    (Hden : BO4 + alpha * (BT - BO4) <> 0) :
  sol_B_iso (Fin BT) (Fin BO4) (Fin d11B_total) (Fin alpha) =
  (Fin (fst (sol_B_iso BT BO4 d11B_total alpha)),
   Fin (snd (sol_B_iso BT BO4 d11B_total alpha))).
Proof.
  unfold sol_B_iso. f64_fin.
  rewrite f64_div_fin by exact Hden.
  reflexivity.
Qed.

(** C8 (counterexample): with numpy floats, [BT = BO4 = 0],
    [d11B_total = 0] and [alpha = 2], [sol_B_iso] divides [0.] by [0.] and
    returns [(nan, nan)]; the gap [d11BO3 - d11BO4] is NaN, not
    [1000 * (alpha - 1) = 1000]. *)
Lemma sol_B_iso_gap_cex :
  sol_B_iso (Fin 0) (Fin 0) (Fin 0) (Fin 2) = (NaN, NaN) /\
  f64_sub (snd (sol_B_iso (Fin 0) (Fin 0) (Fin 0) (Fin 2)))
          (fst (sol_B_iso (Fin 0) (Fin 0) (Fin 0) (Fin 2)))
  <> Fin (1000 * (2 - 1)).
Proof.
  assert (E : sol_B_iso (Fin 0) (Fin 0) (Fin 0) (Fin 2) = (NaN, NaN)).
  { unfold sol_B_iso. f64_fin.
    rsign_zero. simpl. rsign_zero. reflexivity. }
  split; [exact E|].
  rewrite E. simpl. discriminate.
Qed.

(** at a zero divisor [BO4 + alpha * (BT - BO4) = 0], [sol_B_iso] on
    numpy floats returns [(nan, nan)] or twice the same infinity, and its
    gap is NaN; on plain Python floats it raises ZeroDivisionError *)
Lemma sol_B_iso_zero_divisor (BT BO4 d11B_total alpha : R)
    (H0 : BO4 + alpha * (BT - BO4) = 0) :
  (exists v, sol_B_iso (Fin BT) (Fin BO4) (Fin d11B_total) (Fin alpha) = (v, v) /\
             (v = NaN \/ v = Inf true \/ v = Inf false)) /\
  f64_sub (snd (sol_B_iso (Fin BT) (Fin BO4) (Fin d11B_total) (Fin alpha)))
          (fst (sol_B_iso (Fin BT) (Fin BO4) (Fin d11B_total) (Fin alpha))) = NaN /\
  sol_B_iso (PyOk BT) (PyOk BO4) (PyOk d11B_total) (PyOk alpha)
  = (PyZeroDivisionError, PyZeroDivisionError).
Proof.
  assert (Ef : exists v, sol_B_iso (Fin BT) (Fin BO4) (Fin d11B_total) (Fin alpha) = (v, v) /\
                         (v = NaN \/ v = Inf true \/ v = Inf false)).
  { unfold sol_B_iso. f64_fin.
    match goal with
    | |- context [f64_div ?x (Fin ?d)] =>
        replace d with 0 by lra; destruct (f64_div_zero x) as [E|[E|E]]; rewrite E
    end; simpl; eexists; split; auto. }
  destruct Ef as [v [Ev Hv]].
  split; [exists v; auto|]. split.
  - rewrite Ev. simpl. destruct Hv as [ -> | [ -> | -> ] ]; reflexivity.
  - unfold sol_B_iso. cbn [nadd nsub nmul ndiv num pyfloat_PyNum py_lift2].
    unfold py_div.
    match goal with
    | |- context [rsign ?x] => replace x with 0 by lra
    end.
    rewrite rsign_0. reflexivity.
Qed.

(** C8 (amended): for finite inputs whose divisor
    [BO4 + alpha * (BT - BO4)] is nonzero, the pair returned by [sol_B_iso]
    on numpy floats is finite and its gap [d11BO3 - d11BO4] is exactly
    [1000 * (alpha - 1)]; so for [alpha > 1] the gap is positive, and it
    is strictly larger for a larger [alpha].  For finite inputs whose
    divisor is zero there is no such gap: numpy floats give [(nan, nan)]
    or twice the same infinity, whose gap is NaN, and plain Python floats
    raise ZeroDivisionError. *)
Theorem sol_B_iso_gap (BT BO4 d11B_total alpha alpha' : R)
    (Hden : BO4 + alpha * (BT - BO4) <> 0)
    (Hden' : BO4 + alpha' * (BT - BO4) <> 0) :
  (exists d4, fst (sol_B_iso (Fin BT) (Fin BO4) (Fin d11B_total) (Fin alpha)) = Fin d4) /\
  f64_sub (snd (sol_B_iso (Fin BT) (Fin BO4) (Fin d11B_total) (Fin alpha)))
          (fst (sol_B_iso (Fin BT) (Fin BO4) (Fin d11B_total) (Fin alpha)))
  = Fin (1000 * (alpha - 1)) /\
  f64_sub (snd (sol_B_iso (Fin BT) (Fin BO4) (Fin d11B_total) (Fin alpha')))
          (fst (sol_B_iso (Fin BT) (Fin BO4) (Fin d11B_total) (Fin alpha')))
  = Fin (1000 * (alpha' - 1)) /\
  (1 < alpha -> 0 < 1000 * (alpha - 1)) /\
  (alpha < alpha' -> 1000 * (alpha - 1) < 1000 * (alpha' - 1)) /\
  (forall BT0 BO40 d0 alpha0 : R, BO40 + alpha0 * (BT0 - BO40) = 0 ->
     (exists v, sol_B_iso (Fin BT0) (Fin BO40) (Fin d0) (Fin alpha0) = (v, v) /\
                (v = NaN \/ v = Inf true \/ v = Inf false)) /\
     f64_sub (snd (sol_B_iso (Fin BT0) (Fin BO40) (Fin d0) (Fin alpha0)))
             (fst (sol_B_iso (Fin BT0) (Fin BO40) (Fin d0) (Fin alpha0))) = NaN /\
     sol_B_iso (PyOk BT0) (PyOk BO40) (PyOk d0) (PyOk alpha0)
     = (PyZeroDivisionError, PyZeroDivisionError)).
Proof.
  split; [|split; [|split; [|split; [|split]]]].
  - rewrite (sol_B_iso_f64_finite _ _ _ _ Hden). eexists; reflexivity.
  - rewrite (sol_B_iso_f64_finite _ _ _ _ Hden). simpl. f_equal; ring.
  - rewrite (sol_B_iso_f64_finite _ _ _ _ Hden'). simpl. f_equal; ring.
  - intro; lra.
  - intro; lra.
  - exact sol_B_iso_zero_divisor.
Qed.

Lemma sol_B_iso_gap_witness :
  2 + 1.026 * (5 - 2) <> 0 /\ 2 + 1.03 * (5 - 2) <> 0 /\
  f64_sub (snd (sol_B_iso (Fin 5) (Fin 2) (Fin 39.5) (Fin 1.026)))
          (fst (sol_B_iso (Fin 5) (Fin 2) (Fin 39.5) (Fin 1.026)))
  = Fin (1000 * (1.026 - 1)).
Proof.
  assert (H1 : 2 + 1.026 * (5 - 2) <> 0) by lra.
  assert (H2 : 2 + 1.03 * (5 - 2) <> 0) by lra.
  split; [exact H1|]. split; [exact H2|].
  exact (proj1 (proj2 (sol_B_iso_gap 5 2 39.5 1.026 1.03 H1 H2))).
Defined.

(** ** C2: the shared sub-calculation [rS_calc] *)

Lemma rS_calc_f64_finite (Rb Rp Kf rL Kb : R) (Hden : Rb * Kb + Rp <> 0) :
  rS_calc (Fin Rb) (Fin Rp) (Fin Kf) (Fin rL) (Fin Kb) = Fin (rS_calc Rb Rp Kf rL Kb).
Proof.
  unfold rS_calc. f64_fin.
  rewrite f64_div_fin by exact Hden.
  reflexivity.
Qed.

(** C2: whenever [Rb * Kb + Rp] is nonzero, [rS_calc] returns
    [Kf * rL * (Rp + Rb) / (Rb * Kb + Rp)], in exact arithmetic and as a
    finite numpy float; at [(1.0, 1e-6, 2.0, 0.01, 0.5)] it returns that
    closed form, which is [1000001 / 25000050]. *)
Theorem rS_calc_closed_form (Rb Rp Kf rL Kb : R) (Hden : Rb * Kb + Rp <> 0) :
  rS_calc Rb Rp Kf rL Kb = Kf * rL * (Rp + Rb) / (Rb * Kb + Rp) /\
  rS_calc (Fin Rb) (Fin Rp) (Fin Kf) (Fin rL) (Fin Kb)
    = Fin (Kf * rL * (Rp + Rb) / (Rb * Kb + Rp)) /\
  rS_calc (Fin 1.0) (Fin 1e-6) (Fin 2.0) (Fin 0.01) (Fin 0.5)
    = Fin (2.0 * 0.01 * (1e-6 + 1.0) / (1.0 * 0.5 + 1e-6)) /\
  2.0 * 0.01 * (1e-6 + 1.0) / (1.0 * 0.5 + 1e-6) = 1000001 / 25000050.
Proof.
  assert (Hnum : 1.0 * 0.5 + 1e-6 <> 0) by lra.
  repeat split.
  - rewrite rS_calc_f64_finite by exact Hden. reflexivity.
  - rewrite rS_calc_f64_finite by exact Hnum. reflexivity.
  - replace 2.0 with 2 by lra. replace 0.01 with (1 / 100) by lra.
    replace 1.0 with 1 by lra. replace 0.5 with (1 / 2) by lra.
    replace 1e-6 with (1 / 1000000) by lra.
    field.
Qed.

Lemma rS_calc_closed_form_witness :
  1.0 * 0.5 + 1e-6 <> 0 /\
  rS_calc (1.0 : R) 1e-6 2.0 0.01 0.5 = 2.0 * 0.01 * (1e-6 + 1.0) / (1.0 * 0.5 + 1e-6).
Proof.
  assert (H0 : 1.0 * 0.5 + 1e-6 <> 0) by lra.
  split; [exact H0 | exact (proj1 (rS_calc_closed_form 1.0 1e-6 2.0 0.01 0.5 H0))].
Defined.

(** ** C5: the unit converters round-trip *)

(** C5: for [R_ref > 0] and [R_ref * (d/1000 + 1) <> -1],
    [A11_2_d11 (d11_2_A11 d R_ref) R_ref = d]; and for every ratio [r >= 0],
    [R11_2_A11 r] lies in [[0, 1)] and [A11_2_R11 (R11_2_A11 r) = r]. *)
Theorem converters_roundtrip (d R_ref : R) (Hpos : 0 < R_ref)
    (Hone : R_ref * (d / 1000 + 1) <> -1) :
  A11_2_d11 (d11_2_A11 d R_ref) R_ref = d /\
  (forall r : R, 0 <= r ->
     0 <= R11_2_A11 r < 1 /\ A11_2_R11 (R11_2_A11 r) = r).
Proof.
  split.
  - unfold A11_2_d11, d11_2_A11. simpl.
    set (x := R_ref * (d / 1000 + 1)) in *.
    assert (Hx : x + 1 <> 0) by (intro E; apply Hone; lra).
    replace (1 - x / (x + 1)) with (1 / (x + 1)) by (field; exact Hx).
    unfold x in *. field. repeat split; lra || exact Hx.
  - intros r Hr. unfold R11_2_A11, A11_2_R11. simpl.
    assert (H1 : 1 + r <> 0) by lra.
    repeat split.
    + apply Rmult_le_pos; [exact Hr|]. left; apply Rinv_0_lt_compat; lra.
    + apply (Rmult_lt_reg_r (1 + r)); [lra|].
      unfold Rdiv. rewrite Rmult_assoc, Rinv_l by exact H1. lra.
    + replace (1 - r / (1 + r)) with (1 / (1 + r)) by (field; exact H1).
      field. exact H1.
Qed.

Lemma converters_roundtrip_witness :
  0 < 4.04367 /\ 4.04367 * (39.5 / 1000 + 1) <> -1 /\
  A11_2_d11 (d11_2_A11 (39.5 : R) 4.04367) 4.04367 = 39.5.
Proof.
  assert (H1 : 0 < 4.04367) by lra.
  assert (H2 : 4.04367 * (39.5 / 1000 + 1) <> -1) by lra.
  split; [exact H1|]. split; [exact H2|].
  exact (proj1 (converters_roundtrip 39.5 4.04367 H1 H2)).
Defined.

(** ** C10: the fractionated predictors with zero offsets *)

Section ZeroOffset.
Context {T : Type} `{PyNum T}.
Hypothesis add_0_r : forall x : T, nadd x (num 0) = x.

Lemma predfn_fractionated_zero (Kb3 Kf3 Kb4 Kf4 logRb Rp rL3 rL4 B_DIC dBO3 dBO4 : T) :
  predfn_fractionated Kb3 Kf3 Kb4 Kf4 logRb (num 0) (num 0) Rp rL3 rL4 B_DIC dBO3 dBO4 =
  predfn Kb3 Kf3 Kb4 Kf4 logRb Rp rL3 rL4 B_DIC
    (d11_2_A11 dBO3 NIST951) (d11_2_A11 dBO4 NIST951) dBO4.
Proof. unfold predfn_fractionated, predfn. now rewrite !add_0_r. Qed.

Lemma predfn_BO4fractionated_zero (Kb3 Kf3 Kb4 Kf4 logRb Rp rL3 rL4 B_DIC dBO3 dBO4 : T) :
  predfn_BO4fractionated Kb3 Kf3 Kb4 Kf4 logRb (num 0) Rp rL3 rL4 B_DIC dBO3 dBO4 =
  predfn Kb3 Kf3 Kb4 Kf4 logRb Rp rL3 rL4 B_DIC
    (d11_2_A11 dBO3 NIST951) (d11_2_A11 dBO4 NIST951) dBO4.
Proof. unfold predfn_BO4fractionated, predfn. now rewrite !add_0_r. Qed.

End ZeroOffset.

Lemma R_add_0_r (x : R) : nadd x (num 0) = x.
Proof. simpl. ring. Qed.

Lemma f64_add_0_r (x : f64) : nadd x (num 0) = x.
Proof. destruct x; simpl; auto. now rewrite Rplus_0_r. Qed.

(** C10: [predfn_fractionated] with [eps3 = eps4 = 0] and
    [predfn_BO4fractionated] with [eps4 = 0] return the same pair as
    [predfn] given [ABO3 = d11_2_A11 dBO3], [ABO4 = d11_2_A11 dBO4], for
    all inputs, both in exact arithmetic and on numpy floats (including
    infinities and NaN). *)
Theorem fractionated_predictors_reduce :
  (forall Kb3 Kf3 Kb4 Kf4 logRb Rp rL3 rL4 B_DIC dBO3 dBO4 : R,
    predfn_fractionated Kb3 Kf3 Kb4 Kf4 logRb 0 0 Rp rL3 rL4 B_DIC dBO3 dBO4 =
    predfn Kb3 Kf3 Kb4 Kf4 logRb Rp rL3 rL4 B_DIC
      (d11_2_A11 dBO3 NIST951) (d11_2_A11 dBO4 NIST951) dBO4 /\
    predfn_BO4fractionated Kb3 Kf3 Kb4 Kf4 logRb 0 Rp rL3 rL4 B_DIC dBO3 dBO4 =
    predfn Kb3 Kf3 Kb4 Kf4 logRb Rp rL3 rL4 B_DIC
      (d11_2_A11 dBO3 NIST951) (d11_2_A11 dBO4 NIST951) dBO4) /\
  (forall Kb3 Kf3 Kb4 Kf4 logRb Rp rL3 rL4 B_DIC dBO3 dBO4 : f64,
    predfn_fractionated Kb3 Kf3 Kb4 Kf4 logRb (Fin 0) (Fin 0) Rp rL3 rL4 B_DIC dBO3 dBO4 =
    predfn Kb3 Kf3 Kb4 Kf4 logRb Rp rL3 rL4 B_DIC
      (d11_2_A11 dBO3 NIST951) (d11_2_A11 dBO4 NIST951) dBO4 /\
    predfn_BO4fractionated Kb3 Kf3 Kb4 Kf4 logRb (Fin 0) Rp rL3 rL4 B_DIC dBO3 dBO4 =
    predfn Kb3 Kf3 Kb4 Kf4 logRb Rp rL3 rL4 B_DIC
      (d11_2_A11 dBO3 NIST951) (d11_2_A11 dBO4 NIST951) dBO4).
Proof.
  split; intros; split.
  - exact (predfn_fractionated_zero R_add_0_r _ _ _ _ _ _ _ _ _ _ _).
  - exact (predfn_BO4fractionated_zero R_add_0_r _ _ _ _ _ _ _ _ _ _ _).
  - exact (predfn_fractionated_zero f64_add_0_r _ _ _ _ _ _ _ _ _ _ _).
  - exact (predfn_BO4fractionated_zero f64_add_0_r _ _ _ _ _ _ _ _ _ _ _).
Qed.

(** ** C4: the root selected by [sol_B_iso_Rae2018] *)

(** the [+] root of [a x^2 + b x + c] with [a > 0] and [c < 0] is a positive
    root, and the [-] root is negative *)
Lemma quadratic_plus_root (a b c : R) (Ha : 0 < a) (Hc : c < 0) :
  let s := sqrt (b * b - 4 * a * c) in
  0 < (- b + s) / (2 * a) /\
  a * ((- b + s) / (2 * a)) * ((- b + s) / (2 * a)) + b * ((- b + s) / (2 * a)) + c = 0 /\
  (- b - s) / (2 * a) < 0.
Proof.
  intro s.
  assert (HD : 0 <= b * b - 4 * a * c) by nra.
  assert (Hs : s * s = b * b - 4 * a * c) by (apply sqrt_sqrt; exact HD).
  assert (Hs0 : 0 <= s) by apply sqrt_pos.
  assert (Hpos : b < s) by nra.
  assert (Hneg : - b < s) by nra.
  assert (Hinv : 0 < / (2 * a)) by (apply Rinv_0_lt_compat; lra).
  repeat split.
  - unfold Rdiv. apply Rmult_lt_0_compat; lra.
  - assert (Ha0 : a <> 0) by (intro E; lra).
    field_simplify; [| exact Ha0].
    replace (4 * a * c - b ^ 2 + s ^ 2) with 0 by (simpl; nra).
    unfold Rdiv. ring.
  - unfold Rdiv. nra.
Qed.

Lemma Rpower10_pos (x : R) : 0 < Rpower 10 x.
Proof. unfold Rpower. apply exp_pos. Qed.

(** [RB4] is the [+] root of the mass-balance quadratic
    [alpha (H + Kb) x^2 + (Kb + H alpha - R_BT H - R_BT Kb alpha) x - (H + Kb) R_BT] *)
Lemma Rae2018_RB4_plus_root (pH BO4 BT alpha d11BT : R) :
  let Hval := Rpower 10 (- pH) in
  let Kbval := Rae2018_Kbval pH BO4 BT in
  let R_BT := d11_2_R11 d11BT NIST951 in
  let a := alpha * (Hval + Kbval) in
  let b := Kbval + Hval * alpha - R_BT * Hval - R_BT * Kbval * alpha in
  let c := - ((Hval + Kbval) * R_BT) in
  Rae2018_RB4 pH BO4 BT alpha d11BT = (- b + sqrt (b * b - 4 * a * c)) / (2 * a).
Proof.
  intros Hval Kbval R_BT a b c.
  unfold Rae2018_RB4. cbv zeta.
  change (npow10 (nneg pH)) with Hval.
  change (ndiv (nmul BO4 Hval) (nsub BT BO4)) with Kbval.
  change (d11_2_R11 d11BT NIST951) with R_BT.
  unfold a, b, c. clearbody Hval Kbval R_BT.
  unfold sq. simpl.
  unfold Rdiv. f_equal.
  - match goal with
    | |- sqrt ?X - _ - _ + _ + _ = _ + sqrt ?Y => replace X with Y by ring
    end.
    ring.
  - f_equal. ring.
Qed.

(** C4: for [0 < BO4 < BT], [alpha > 0] and a positive bulk ratio
    [R_BT = d11_2_R11 d11BT], the pair [(d11BO4, d11BO3)] returned by
    [sol_B_iso_Rae2018] is the delta of [RB4] and of [RB3 = alpha * RB4],
    so [d11BO3/1000 + 1 = alpha * (d11BO4/1000 + 1)]; [RB4] is the [+] root
    of the mass-balance quadratic, it is positive, and the other root is
    negative. *)
Theorem sol_B_iso_Rae2018_ratios (pH BO4 BT alpha d11BT : R)
    (HBO4 : 0 < BO4) (HBT : BO4 < BT) (Ha : 0 < alpha)
    (HR : 0 < d11_2_R11 d11BT NIST951) :
  let RB4 := Rae2018_RB4 pH BO4 BT alpha d11BT in
  let Hval := Rpower 10 (- pH) in
  let Kbval := Rae2018_Kbval pH BO4 BT in
  let R_BT := d11_2_R11 d11BT NIST951 in
  let a := alpha * (Hval + Kbval) in
  let b := Kbval + Hval * alpha - R_BT * Hval - R_BT * Kbval * alpha in
  let c := - ((Hval + Kbval) * R_BT) in
  sol_B_iso_Rae2018 pH BO4 BT alpha d11BT
    = (R11_2_d11 RB4 NIST951, R11_2_d11 (RB4 * alpha) NIST951) /\
  snd (sol_B_iso_Rae2018 pH BO4 BT alpha d11BT) / 1000 + 1
    = alpha * (fst (sol_B_iso_Rae2018 pH BO4 BT alpha d11BT) / 1000 + 1) /\
  0 < RB4 /\
  RB4 = (- b + sqrt (b * b - 4 * a * c)) / (2 * a) /\
  a * RB4 * RB4 + b * RB4 + c = 0 /\
  (- b - sqrt (b * b - 4 * a * c)) / (2 * a) < 0.
Proof.
  intros RB4 Hval Kbval R_BT a b c.
  assert (HH : 0 < Hval) by apply Rpower10_pos.
  assert (HK : 0 < Kbval).
  { unfold Kbval, Rae2018_Kbval. simpl. pose proof (Rpower10_pos (- pH)).
    apply Rdiv_lt_0_compat; [apply Rmult_lt_0_compat|]; lra. }
  assert (Hapos : 0 < a) by (unfold a; apply Rmult_lt_0_compat; lra).
  assert (HRT : 0 < R_BT) by exact HR.
  assert (Hcneg : c < 0).
  { unfold c. assert (0 < (Hval + Kbval) * R_BT) by (apply Rmult_lt_0_compat; lra). lra. }
  destruct (quadratic_plus_root a b c Hapos Hcneg) as (Hp & Hq & Hn).
  assert (Hroot : RB4 = (- b + sqrt (b * b - 4 * a * c)) / (2 * a))
    by exact (Rae2018_RB4_plus_root pH BO4 BT alpha d11BT).
  assert (E : sol_B_iso_Rae2018 pH BO4 BT alpha d11BT
             = (R11_2_d11 RB4 NIST951, R11_2_d11 (RB4 * alpha) NIST951)) by reflexivity.
  split; [exact E|].
  rewrite E. split.
  - clearbody RB4. simpl.
    replace 4.04367 with (404367 / 100000) by lra.
    field.
  - rewrite Hroot. repeat split; assumption.
Qed.

Lemma sol_B_iso_Rae2018_ratios_witness :
  0 < (1 : R) /\ (1 : R) < 5 /\ (0 : R) < 1.0272 /\ 0 < d11_2_R11 (39.5 : R) NIST951 /\
  snd (sol_B_iso_Rae2018 8 1 5 1.0272 39.5) / 1000 + 1
    = 1.0272 * (fst (sol_B_iso_Rae2018 8 1 5 1.0272 39.5) / 1000 + 1).
Proof.
  assert (H1 : 0 < (1 : R)) by lra.
  assert (H2 : (1 : R) < 5) by lra.
  assert (H3 : (0 : R) < 1.0272) by lra.
  assert (H4 : 0 < d11_2_R11 (39.5 : R) NIST951) by (simpl; lra).
  repeat split; try assumption.
  exact (proj1 (proj2 (sol_B_iso_Rae2018_ratios 8 1 5 1.0272 39.5 H1 H2 H3 H4))).
Defined.

(** ** C9: the mean-normalised error arrays of [extract_model_vars] *)

Lemma sqrt_4 : sqrt 4 = 2.
Proof. replace 4 with (2 * 2) by ring. apply sqrt_square. lra. Qed.

(** C9 (counterexample): for the error array [[4.]] (mean [4.]), the
    normalised array is [[1.]] = [[(4/4)**0.5]], not
    [[4 / 4**0.5]] = [[2.]]. *)
Lemma extract_err_norm_cex :
  fst (extract_err_norm (T := R) [4] [4]) = [1] /\
  4 / sqrt (np_mean [4]) = 2 /\
  fst (extract_err_norm (T := R) [4] [4]) <> [4 / sqrt (np_mean [4])].
Proof.
  assert (Hm : np_mean (T := R) [4] = 4) by (unfold np_mean, np_sum; simpl; field).
  assert (Hn : fst (extract_err_norm (T := R) [4] [4]) = [1]).
  { unfold extract_err_norm. cbn [fst map]. rewrite Hm. simpl.
    replace (4 / 4) with 1 by field. rewrite sqrt_1. reflexivity. }
  assert (Hc : 4 / sqrt (np_mean (T := R) [4]) = 2).
  { rewrite Hm, sqrt_4. field. }
  split; [exact Hn|]. split; [exact Hc|].
  rewrite Hn, Hc. intro E. injection E. lra.
Qed.

Lemma sqrt_div_mul (x m : R) : 0 <= x -> 0 < m -> sqrt (x / m) * sqrt (x / m) * m = x.
Proof.
  intros Hx Hm.
  rewrite sqrt_sqrt
    by (unfold Rdiv; apply Rmult_le_pos; [lra | left; apply Rinv_0_lt_compat; lra]).
  field. intro; lra.
Qed.

Lemma nth_map_sqrt (l : list R) (m : R) (i : nat) (Hi : (i < length l)%nat) :
  nth i (map (fun e => sqrt (e / m)) l) 0 = sqrt (nth i l 0 / m).
Proof.
  rewrite (nth_indep _ 0 (sqrt (0 / m))) by (rewrite length_map; exact Hi).
  apply (map_nth (fun e => sqrt (e / m))).
Qed.

(** C9 (amended): each normalised element is
    [(err[i] / mean(err))**0.5], the square root of the error over the
    array's mean; for a nonnegative error and a positive mean its square
    times the mean gives back [err[i]]. *)
Theorem extract_err_norm_sqrt (LambdaB_err EpsilonB_err : list R) (i : nat)
    (Hi : (i < length LambdaB_err)%nat) (Hj : (i < length EpsilonB_err)%nat) :
  let '(LambdaB_err_norm, EpsilonB_err_norm) := extract_err_norm LambdaB_err EpsilonB_err in
  length LambdaB_err_norm = length LambdaB_err /\
  length EpsilonB_err_norm = length EpsilonB_err /\
  nth i LambdaB_err_norm 0 = sqrt (nth i LambdaB_err 0 / np_mean LambdaB_err) /\
  nth i EpsilonB_err_norm 0 = sqrt (nth i EpsilonB_err 0 / np_mean EpsilonB_err) /\
  (0 <= nth i LambdaB_err 0 -> 0 < np_mean LambdaB_err ->
     nth i LambdaB_err_norm 0 * nth i LambdaB_err_norm 0 * np_mean LambdaB_err
     = nth i LambdaB_err 0) /\
  (0 <= nth i EpsilonB_err 0 -> 0 < np_mean EpsilonB_err ->
     nth i EpsilonB_err_norm 0 * nth i EpsilonB_err_norm 0 * np_mean EpsilonB_err
     = nth i EpsilonB_err 0).
Proof.
  unfold extract_err_norm. simpl.
  rewrite !length_map, !nth_map_sqrt by assumption.
  refine (conj _ (conj _ (conj _ (conj _ (conj _ _))))); try reflexivity;
    apply sqrt_div_mul.
Qed.

Lemma extract_err_norm_sqrt_witness :
  (1 < length [1; 3])%nat /\ (1 < length [2; 2])%nat /\
  nth 1 (fst (extract_err_norm (T := R) [1; 3] [2; 2])) 0 = sqrt (3 / np_mean [1; 3]).
Proof.
  assert (Hi : (1 < length [1; 3])%nat) by (simpl; lia).
  assert (Hj : (1 < length [2; 2])%nat) by (simpl; lia).
  split; [exact Hi|]. split; [exact Hj|].
  exact (proj1 (proj2 (proj2 (extract_err_norm_sqrt [1; 3] [2; 2] 1 Hi Hj)))).
Defined.

(** ** C7: a zero denominator in [rS_calc], and NaN in [fitfn] *)

Lemma f64_add_NaN_l (x : f64) : f64_add NaN x = NaN.
Proof. reflexivity. Qed.

Lemma f64_add_NaN_r (x : f64) : f64_add x NaN = NaN.
Proof. destruct x; reflexivity. Qed.

Lemma f64_mul_NaN_r (x : f64) : f64_mul x NaN = NaN.
Proof. destruct x; reflexivity. Qed.

Lemma fold_f64_add_NaN (l : list f64) : fold_left f64_add l NaN = NaN.
Proof. induction l as [|x l IH]; simpl; auto. Qed.

Lemma fold_f64_add_In_NaN (l : list f64) (acc : f64) :
  In NaN l -> fold_left f64_add l acc = NaN.
Proof.
  revert acc; induction l as [|x l IH]; intros acc Hin; [contradiction|].
  cbn [fold_left]. destruct Hin as [->|Hin].
  - rewrite f64_add_NaN_r. apply fold_f64_add_NaN.
  - apply IH, Hin.
Qed.

(** a NaN prediction makes its squared, error-weighted residual NaN *)
Lemma residual_NaN (y e : f64) : f64_div (sq (f64_sub NaN y)) (sq e) = NaN.
Proof. reflexivity. Qed.

Lemma np_ptp_map_cons {A : Type} (f : A -> f64) (r : A) (rs : list A) :
  exists v, np_ptp (map f (r :: rs)) = Some v.
Proof. eexists. reflexivity. Qed.

(** C7 (counterexample): with plain Python floats, [rS_calc(1.0, 0.0,
    1.0, 1.0, 0.0)] has [Rb * Kb + Rp = 0] and raises ZeroDivisionError
    instead of returning NaN or inf. *)
Lemma rS_calc_pyfloat_raises_cex :
  1 * 0 + 0 = 0 /\
  rS_calc (PyOk 1) (PyOk 0) (PyOk 1) (PyOk 1) (PyOk 0) = PyZeroDivisionError.
Proof.
  split; [ring|].
  unfold rS_calc. simpl. unfold py_div. rsign_zero. reflexivity.
Qed.

(** C7 (amended): on numpy floats (any argument being a numpy float64 or
    array, as in [predfn], whose [Rp] is an array), [rS_calc] with
    [Rb * Kb + Rp = 0] returns NaN or an infinity and raises nothing; when
    all arguments are plain Python floats it raises ZeroDivisionError; and
    every numpy [fitfn] evaluation in which one prediction of [predfn] is
    NaN returns NaN. *)
Theorem rS_calc_zero_denominator :
  (forall Rb Rp Kf rL Kb : f64,
     f64_add (f64_mul Rb Kb) Rp = Fin 0 ->
     rS_calc Rb Rp Kf rL Kb = NaN \/ rS_calc Rb Rp Kf rL Kb = Inf true \/
     rS_calc Rb Rp Kf rL Kb = Inf false) /\
  (forall Rb Rp Kf rL Kb : R,
     Rb * Kb + Rp = 0 ->
     rS_calc (PyOk Rb) (PyOk Rp) (PyOk Kf) (PyOk rL) (PyOk Kb) = PyZeroDivisionError) /\
  (forall (Kb3 Kf3 Kb4 Kf4 logRb : f64) (rows : list (row f64)) (bias : option f64)
          (r : row f64),
     In r rows ->
     fst (predfn Kb3 Kf3 Kb4 Kf4 logRb (Rp r) (rL3 r) (rL4 r) (B_DIC r)
            (ABO3 r) (ABO4 r) (dBO4 r)) = NaN \/
     snd (predfn Kb3 Kf3 Kb4 Kf4 logRb (Rp r) (rL3 r) (rL4 r) (B_DIC r)
            (ABO3 r) (ABO4 r) (dBO4 r)) = NaN ->
     fitfn (Kb3, Kf3, Kb4, Kf4, logRb) rows bias = Some NaN).
Proof.
  split; [|split].
  - intros Rb Rp Kf rL Kb Hz.
    change (rS_calc Rb Rp Kf rL Kb)
      with (f64_div (f64_mul (f64_mul Kf rL) (f64_add Rp Rb)) (f64_add (f64_mul Rb Kb) Rp)).
    rewrite Hz. apply f64_div_zero.
  - intros Rb Rp Kf rL Kb Hz.
    unfold rS_calc. simpl. unfold py_div. rewrite Hz, rsign_0. reflexivity.
  - intros Kb3 Kf3 Kb4 Kf4 logRb rows bias r Hin Hnan.
    assert (Hb : exists b, match bias with
                           | Some b => Some b
                           | None =>
                               match np_ptp (map EpsilonB rows), np_ptp (map LambdaB rows) with
                               | Some e, Some l => Some (ndiv e l)
                               | _, _ => None
                               end
                           end = Some b).
    { destruct bias as [b|]; [eauto|].
      destruct rows as [|r0 rs]; [contradiction|].
      destruct (np_ptp_map_cons EpsilonB r0 rs) as [e ->].
      destruct (np_ptp_map_cons LambdaB r0 rs) as [l ->]. eauto. }
    destruct Hb as [b Hb].
    unfold fitfn. rewrite Hb. f_equal.
    destruct Hnan as [Hl|He].
    + assert (Hs : np_sum (map (fun r0 => sq (fst (predfn Kb3 Kf3 Kb4 Kf4 logRb (Rp r0)
                     (rL3 r0) (rL4 r0) (B_DIC r0) (ABO3 r0) (ABO4 r0) (dBO4 r0))
                     - LambdaB r0)%py / sq (LambdaB_err r0))%py rows) = NaN).
      { apply fold_f64_add_In_NaN, in_map_iff. exists r. split; [|exact Hin].
        cbv beta. rewrite Hl. exact (residual_NaN _ _). }
      rewrite Hs. simpl. rewrite f64_mul_NaN_r. reflexivity.
    + assert (Hs : np_sum (map (fun r0 => sq (snd (predfn Kb3 Kf3 Kb4 Kf4 logRb (Rp r0)
                     (rL3 r0) (rL4 r0) (B_DIC r0) (ABO3 r0) (ABO4 r0) (dBO4 r0))
                     - EpsilonB r0)%py / sq (EpsilonB_err r0))%py rows) = NaN).
      { apply fold_f64_add_In_NaN, in_map_iff. exists r. split; [|exact Hin].
        cbv beta. rewrite He. exact (residual_NaN _ _). }
      rewrite Hs. simpl. apply f64_add_NaN_r.
Qed.

(** ** C6: the degenerate input [BT = BO4] of [sol_B_iso_Rae2018] *)

Lemma d11_2_R11_f64 (d : R) :
  d11_2_R11 (Fin d) NIST951 = Fin ((d / 1000 + 1) * 4.04367).
Proof.
  unfold d11_2_R11, NIST951. cbn [nadd nmul ndiv num f64_PyNum].
  rewrite f64_div_fin by lra. reflexivity.
Qed.

Lemma Rae2018_f64_degenerate (pH BT alpha d11BT : R) (Ha : 0 < alpha)
    (HR : 0 < (d11BT / 1000 + 1) * 4.04367) :
  sol_B_iso_Rae2018 (Fin pH) (Fin BT) (Fin BT) (Fin alpha) (Fin d11BT) = (NaN, NaN).
Proof.
  unfold sol_B_iso_Rae2018, Rae2018_RB4. cbv zeta.
  rewrite d11_2_R11_f64.
  set (r := (d11BT / 1000 + 1) * 4.04367) in *. clearbody r.
  change (npow10 (nneg (Fin pH))) with (Fin (Rpower 10 (- pH))).
  pose proof (Rpower10_pos (- pH)) as Hh.
  set (h := Rpower 10 (- pH)) in *. clearbody h.
  assert (HK : ndiv (nmul (Fin BT) (Fin h)) (nsub (Fin BT) (Fin BT))
               = inf_scale (rsign (BT * h)) true)
    by (simpl; rsign_zero; reflexivity).
  rewrite HK.
  unfold sq.
  destruct (rsign (BT * h)); simpl inf_scale;
    repeat (cbn; match goal with
                 | |- context [rsign ?x] => rewrite (rsign_pos x) by nra
                 end);
    reflexivity.
Qed.

Lemma d11_2_R11_pyfloat (d : R) :
  d11_2_R11 (PyOk d) NIST951 = PyOk ((d / 1000 + 1) * 4.04367).
Proof.
  unfold d11_2_R11, NIST951. simpl. unfold py_div.
  rewrite (rsign_pos 1000) by lra. reflexivity.
Qed.

Lemma Rae2018_pyfloat_degenerate (pH BT alpha d11BT : R) :
  sol_B_iso_Rae2018 (PyOk pH) (PyOk BT) (PyOk BT) (PyOk alpha) (PyOk d11BT)
  = (PyZeroDivisionError, PyZeroDivisionError).
Proof.
  unfold sol_B_iso_Rae2018, Rae2018_RB4. cbv zeta.
  rewrite d11_2_R11_pyfloat.
  change (npow10 (nneg (PyOk pH))) with (PyOk (Rpower 10 (- pH))).
  assert (HK : ndiv (nmul (PyOk BT) (PyOk (Rpower 10 (- pH))))
                    (nsub (PyOk BT) (PyOk BT)) = PyZeroDivisionError)
    by (simpl; unfold py_div; rsign_zero; reflexivity).
  rewrite HK. reflexivity.
Qed.

(** C6 (counterexample): with numpy floats (load.py passes pandas Series),
    [sol_B_iso_Rae2018] at [pH = 8], [BO4 = BT = 1], [alpha = 1.0272],
    [d11BT = 39.5] raises nothing and returns [(nan, nan)]. *)
Lemma sol_B_iso_Rae2018_degenerate_cex :
  sol_B_iso_Rae2018 (Fin 8) (Fin 1) (Fin 1) (Fin 1.0272) (Fin 39.5) = (NaN, NaN).
Proof. apply Rae2018_f64_degenerate; lra. Qed.

(** C6 (amended): [sol_B_iso_Rae2018] has no check for [BT = BO4].  For
    [alpha > 0] and a positive bulk ratio, numpy inputs give
    [Kbval = BO4 * H / 0] (an infinity, or NaN when [BO4 = 0]) and the
    function returns [(nan, nan)] without raising; plain Python floats
    raise ZeroDivisionError. *)
Theorem sol_B_iso_Rae2018_degenerate (pH BT alpha d11BT : R) (Ha : 0 < alpha)
    (HR : 0 < d11_2_R11 d11BT NIST951) :
  sol_B_iso_Rae2018 (Fin pH) (Fin BT) (Fin BT) (Fin alpha) (Fin d11BT) = (NaN, NaN) /\
  sol_B_iso_Rae2018 (PyOk pH) (PyOk BT) (PyOk BT) (PyOk alpha) (PyOk d11BT)
  = (PyZeroDivisionError, PyZeroDivisionError).
Proof.
  split.
  - apply Rae2018_f64_degenerate; [exact Ha|]. simpl in HR. exact HR.
  - apply Rae2018_pyfloat_degenerate.
Qed.

Lemma sol_B_iso_Rae2018_degenerate_witness :
  (0 : R) < 1.0272 /\ 0 < d11_2_R11 (39.5 : R) NIST951 /\
  sol_B_iso_Rae2018 (Fin 8) (Fin 0.5e-3) (Fin 0.5e-3) (Fin 1.0272) (Fin 39.5) = (NaN, NaN).
Proof.
  assert (H1 : (0 : R) < 1.0272) by lra.
  assert (H2 : 0 < d11_2_R11 (39.5 : R) NIST951) by (simpl; lra).
  split; [exact H1|]. split; [exact H2|].
  exact (proj1 (sol_B_iso_Rae2018_degenerate 8 0.5e-3 1.0272 39.5 H1 H2)).
Defined.

Lemma rS_calc_zero_denominator_witness :
  rS_calc (PyOk 2) (PyOk 0) (PyOk 3) (PyOk 0.01) (PyOk 0) = PyZeroDivisionError.
Proof.
  assert (Hz : 2 * 0 + 0 = 0) by ring.
  exact (proj1 (proj2 rS_calc_zero_denominator) 2 0 3 0.01 0 Hz).
Defined.

(** ** C3: the cost of [fitfn] *)

Lemma fold_Rplus_acc (l : list R) (a : R) :
  fold_left Rplus l a = a + fold_right Rplus 0 l.
Proof.
  revert a. induction l as [|x l IH]; intro a; simpl.
  - ring.
  - rewrite IH. ring.
Qed.

Lemma np_sum_R (l : list R) : np_sum l = fold_right Rplus 0 l.
Proof. unfold np_sum. simpl. rewrite fold_Rplus_acc. ring. Qed.



Lemma fold_Rmax_ge (l : list R) (x : R) :
  Forall (fun y => y <= fold_left Rmax l x) (x :: l).
Proof.
  revert x. induction l as [|y l IH]; intro x; simpl.
  - constructor; [lra | constructor].
  - specialize (IH (Rmax x y)). inversion IH as [|a b Hm Hl]; subst.
    constructor; [| constructor]; try assumption.
    + eapply Rle_trans; [apply Rmax_l | exact Hm].
    + eapply Rle_trans; [apply Rmax_r | exact Hm].
Qed.


Lemma fold_Rmin_le (l : list R) (x : R) :
  Forall (fun y => fold_left Rmin l x <= y) (x :: l).
Proof.
  revert x. induction l as [|y l IH]; intro x; simpl.
  - constructor; [lra | constructor].
  - specialize (IH (Rmin x y)). inversion IH as [|a b Hm Hl]; subst.
    constructor; [| constructor]; try assumption.
    + eapply Rle_trans; [exact Hm | apply Rmin_l].
    + eapply Rle_trans; [exact Hm | apply Rmin_r].
Qed.



Lemma sum_map_zero {A : Type} (f : A -> R) (l : list A) :
  (forall x, In x l -> f x = 0) -> fold_right Rplus 0 (map f l) = 0.
Proof.
  induction l as [|x l IH]; intro Hz; simpl; [reflexivity|].
  rewrite Hz by (now left). rewrite IH by (intros y Hy; apply Hz; now right). ring.
Qed.














(** * Further properties of the code *)

(** ** The unit converters *)

Lemma NIST951_R : NIST951 (T := R) = 404367 / 100000.
Proof. unfold NIST951. simpl. lra. Qed.

Lemma d11_R11_roundtrip_NIST (x : R) : d11_2_R11 (R11_2_d11 x NIST951) NIST951 = x.
Proof. rewrite NIST951_R. unfold d11_2_R11, R11_2_d11. simpl. field. Qed.

Lemma R11_d11_roundtrip_NIST (d : R) : R11_2_d11 (d11_2_R11 d NIST951) NIST951 = d.
Proof. rewrite NIST951_R. unfold d11_2_R11, R11_2_d11. simpl. field. Qed.

(** [R11_2_d11] and [d11_2_R11] are inverse to each other for every
    nonzero reference ratio. *)
Theorem delta_ratio_roundtrip (d Rr SRM_ratio : R) (Hs : SRM_ratio <> 0) :
  R11_2_d11 (d11_2_R11 d SRM_ratio) SRM_ratio = d /\
  d11_2_R11 (R11_2_d11 Rr SRM_ratio) SRM_ratio = Rr.
Proof. unfold d11_2_R11, R11_2_d11. simpl. split; field; exact Hs. Qed.

Lemma delta_ratio_roundtrip_witness :
  (4.04367 : R) <> 0 /\ R11_2_d11 (d11_2_R11 (-16.3 : R) 4.04367) 4.04367 = -16.3.
Proof.
  assert (Hs : (4.04367 : R) <> 0) by (intro E; lra).
  split; [exact Hs|].
  exact (proj1 (delta_ratio_roundtrip (-16.3) 0 4.04367 Hs)).
Defined.


(** An abundance of exactly [1] (no 10B) is outside the abundance
    converters: with plain Python floats [A11_2_d11] and [A11_2_R11] raise
    ZeroDivisionError; with numpy floats they return [+inf] (for a
    positive reference ratio). *)
Theorem abundance_one_edge (SRM_ratio : R) (Hs : 0 < SRM_ratio) :
  A11_2_d11 (PyOk 1) (PyOk SRM_ratio) = PyZeroDivisionError /\
  A11_2_R11 (PyOk 1) = PyZeroDivisionError /\
  A11_2_d11 (Fin 1) (Fin SRM_ratio) = Inf true /\
  A11_2_R11 (Fin 1) = Inf true.
Proof.
  unfold A11_2_d11, A11_2_R11. repeat split.
  - simpl. unfold py_div. rsign_zero. reflexivity.
  - simpl. unfold py_div. rsign_zero. reflexivity.
  - simpl. rsign_zero. rewrite (rsign_pos 1) by lra. simpl.
    rewrite (rsign_pos SRM_ratio) by lra. simpl.
    rewrite (rsign_pos 1000) by lra. reflexivity.
  - simpl. rsign_zero. rewrite (rsign_pos 1) by lra. reflexivity.
Qed.

Lemma abundance_one_edge_witness :
  (0 : R) < 4.04367 /\ A11_2_d11 (Fin 1) (Fin 4.04367) = Inf true.
Proof.
  assert (Hs : (0 : R) < 4.04367) by lra.
  split; [exact Hs|].
  exact (proj1 (proj2 (proj2 (abundance_one_edge 4.04367 Hs)))).
Defined.

(** ** The solution isotope solvers *)

(** With [alpha = 1] (no fractionation) and a nonzero [BT], [sol_B_iso]
    gives both species the bulk delta. *)
Theorem sol_B_iso_no_fractionation (BT BO4 d11B_total : R) (HBT : BT <> 0) :
  sol_B_iso BT BO4 d11B_total 1 = (d11B_total, d11B_total).
Proof.
  unfold sol_B_iso. simpl. f_equal; field; intro E; apply HBT; lra.
Qed.

Lemma sol_B_iso_no_fractionation_witness :
  (0.5 : R) <> 0 /\ sol_B_iso (0.5 : R) 0.1 39.5 1 = (39.5, 39.5).
Proof.
  assert (H : (0.5 : R) <> 0) by (intro E; lra).
  split; [exact H | exact (sol_B_iso_no_fractionation 0.5 0.1 39.5 H)].
Defined.

Lemma Rae2018_Kbval_pos (pH BO4 BT : R) (HBO4 : 0 < BO4) (HBT : BO4 < BT) :
  0 < Rae2018_Kbval pH BO4 BT.
Proof.
  unfold Rae2018_Kbval. simpl. pose proof (Rpower10_pos (- pH)).
  apply Rdiv_lt_0_compat; [apply Rmult_lt_0_compat|]; lra.
Qed.

(** With [alpha = 1], [0 < BO4 < BT] and a positive bulk ratio,
    [sol_B_iso_Rae2018] gives both species the bulk delta [d11BT]. *)
Theorem sol_B_iso_Rae2018_no_fractionation (pH BO4 BT d11BT : R)
    (HBO4 : 0 < BO4) (HBT : BO4 < BT) (HR : 0 < d11_2_R11 d11BT NIST951) :
  sol_B_iso_Rae2018 pH BO4 BT 1 d11BT = (d11BT, d11BT).
Proof.
  pose proof (Rae2018_RB4_plus_root pH BO4 BT 1 d11BT) as Hroot. cbv zeta in Hroot.
  set (H := Rpower 10 (- pH)) in Hroot.
  set (K := Rae2018_Kbval pH BO4 BT) in Hroot.
  set (R_BT := d11_2_R11 d11BT NIST951) in Hroot, HR.
  assert (HH : 0 < H) by apply Rpower10_pos.
  assert (HK : 0 < K) by (apply Rae2018_Kbval_pos; assumption).
  assert (Hd : (K + H * 1 - R_BT * H - R_BT * K * 1) * (K + H * 1 - R_BT * H - R_BT * K * 1)
               - 4 * (1 * (H + K)) * - ((H + K) * R_BT)
               = ((H + K) * (1 + R_BT)) * ((H + K) * (1 + R_BT))) by ring.
  rewrite Hd, sqrt_square in Hroot by (apply Rmult_le_pos; lra).
  assert (E : Rae2018_RB4 pH BO4 BT 1 d11BT = R_BT) by (rewrite Hroot; field; lra).
  unfold sol_B_iso_Rae2018. cbv zeta. rewrite E.
  change (nmul R_BT (num 1)) with (R_BT * 1). rewrite Rmult_1_r.
  unfold R_BT. rewrite R11_d11_roundtrip_NIST. reflexivity.
Qed.

Lemma sol_B_iso_Rae2018_no_fractionation_witness :
  0 < (1 : R) /\ (1 : R) < 5 /\ 0 < d11_2_R11 (39.5 : R) NIST951 /\
  sol_B_iso_Rae2018 8 1 5 1 39.5 = (39.5, 39.5).
Proof.
  assert (H1 : 0 < (1 : R)) by lra.
  assert (H2 : (1 : R) < 5) by lra.
  assert (H3 : 0 < d11_2_R11 (39.5 : R) NIST951) by (simpl; lra).
  repeat split; try assumption.
  exact (sol_B_iso_Rae2018_no_fractionation 8 1 5 39.5 H1 H2 H3).
Defined.

(** For [0 < BO4 < BT], [alpha > 0] and a positive bulk ratio, the deltas
    returned by [sol_B_iso_Rae2018] satisfy the 11B mass balance of Rae
    (2018) exactly: with [A(d) = R11_2_A11 (d11_2_R11 d)] the 11B abundance
    of a delta, [BT * A(d11BT) = BO4 * A(d11BO4) + (BT - BO4) * A(d11BO3)]. *)
Theorem sol_B_iso_Rae2018_mass_balance (pH BO4 BT alpha d11BT : R)
    (HBO4 : 0 < BO4) (HBT : BO4 < BT) (Ha : 0 < alpha)
    (HR : 0 < d11_2_R11 d11BT NIST951) :
  let '(d11BO4, d11BO3) := sol_B_iso_Rae2018 pH BO4 BT alpha d11BT in
  BT * R11_2_A11 (d11_2_R11 d11BT NIST951)
  = BO4 * R11_2_A11 (d11_2_R11 d11BO4 NIST951)
    + (BT - BO4) * R11_2_A11 (d11_2_R11 d11BO3 NIST951).
Proof.
  pose proof (Rae2018_RB4_plus_root pH BO4 BT alpha d11BT) as Hroot. cbv zeta in Hroot.
  set (x := Rae2018_RB4 pH BO4 BT alpha d11BT) in Hroot.
  assert (E : sol_B_iso_Rae2018 pH BO4 BT alpha d11BT
              = (R11_2_d11 x NIST951, R11_2_d11 (x * alpha) NIST951)) by reflexivity.
  rewrite E. cbv iota beta. rewrite !d11_R11_roundtrip_NIST.
  set (H := Rpower 10 (- pH)) in Hroot.
  set (K := Rae2018_Kbval pH BO4 BT) in Hroot.
  set (R_BT := d11_2_R11 d11BT NIST951) in Hroot, HR |- *.
  assert (HH : 0 < H) by apply Rpower10_pos.
  assert (HK : 0 < K) by (apply Rae2018_Kbval_pos; assumption).
  assert (HKD : BO4 = K * (BT - BO4) / H).
  { unfold K, Rae2018_Kbval. simpl. fold H. field. split; intro; lra. }
  assert (Ha' : 0 < alpha * (H + K)) by (apply Rmult_lt_0_compat; lra).
  assert (Hc : - ((H + K) * R_BT) < 0).
  { assert (0 < (H + K) * R_BT) by (apply Rmult_lt_0_compat; lra). lra. }
  destruct (quadratic_plus_root _ (K + H * alpha - R_BT * H - R_BT * K * alpha) _ Ha' Hc)
    as (Hx & Hq & _).
  rewrite <- Hroot in Hx, Hq.
  clearbody x H K R_BT.
  simpl.
  set (D := BT - BO4) in *.
  assert (HD : 0 < D) by (unfold D; lra).
  replace BT with (D + BO4) by (unfold D; ring).
  rewrite HKD. clearbody D.
  assert (Hax : 0 < x * alpha) by (apply Rmult_lt_0_compat; lra).
  apply Rminus_diag_uniq.
  transitivity (- (D / H) * (alpha * (H + K) * x * x
                             + (K + H * alpha - R_BT * H - R_BT * K * alpha) * x
                             + - ((H + K) * R_BT))
                / ((1 + R_BT) * (1 + x) * (1 + x * alpha))).
  - field. repeat split; intro; lra.
  - rewrite Hq. unfold Rdiv. ring.
Qed.

Lemma sol_B_iso_Rae2018_mass_balance_witness :
  0 < (1 : R) /\ (1 : R) < 5 /\ (0 : R) < 1.0272 /\ 0 < d11_2_R11 (39.5 : R) NIST951 /\
  let '(d11BO4, d11BO3) := sol_B_iso_Rae2018 8 1 5 1.0272 39.5 in
  5 * R11_2_A11 (d11_2_R11 (39.5 : R) NIST951)
  = 1 * R11_2_A11 (d11_2_R11 d11BO4 NIST951) + (5 - 1) * R11_2_A11 (d11_2_R11 d11BO3 NIST951).
Proof.
  assert (H1 : 0 < (1 : R)) by lra.
  assert (H2 : (1 : R) < 5) by lra.
  assert (H3 : (0 : R) < 1.0272) by lra.
  assert (H4 : 0 < d11_2_R11 (39.5 : R) NIST951) by (simpl; lra).
  repeat split; try assumption.
  exact (sol_B_iso_Rae2018_mass_balance 8 1 5 1.0272 39.5 H1 H2 H3 H4).
Defined.

(** ** The predictors *)

Import Single.

Lemma rS_calc_pos (Rb Rp Kf rL Kb : R) :
  0 < Rb -> 0 <= Rp -> 0 < Kf -> 0 < rL -> 0 < Kb -> 0 < rS_calc Rb Rp Kf rL Kb.
Proof.
  intros. unfold rS_calc. simpl.
  apply Rdiv_lt_0_compat.
  - apply Rmult_lt_0_compat; [apply Rmult_lt_0_compat|]; lra.
  - assert (0 < Rb * Kb) by (apply Rmult_lt_0_compat; lra). lra.
Qed.

(** [predfn] with no boric acid in solution ([rL3 = 0]) and the borate
    abundance taken at [dB + epsilon] is [predfn_single_species] of the
    borate parameters, whatever [Kf3] and [ABO3], for a positive [Kb3]
    (so that the boric-acid rate [rS3 = 0 / (Rb * Kb3 + Rp)] is [0]). *)
Theorem predfn_single_species_as_predfn
    (Kb3 Kf3 Kb4 Kf4 logRb epsilon Rp rL4 B_DIC ABO3 dB dBO4 : R)
    (HKf : 0 < Kf4) (HrL : 0 < rL4) (HRp : 0 <= Rp) (HKb : 0 < Kb4)
    (Hd : -1000 < dB + epsilon) (HKb3 : 0 < Kb3) :
  predfn Kb3 Kf3 Kb4 Kf4 logRb Rp 0 rL4 B_DIC ABO3 (d11_2_A11 (dB + epsilon) NIST951) dBO4
  = predfn_single_species Kb4 Kf4 logRb epsilon Rp rL4 B_DIC dB dBO4.
Proof.
  pose proof (rS_calc_pos (Rpower 10 logRb) Rp Kf4 rL4 Kb4 (Rpower10_pos logRb) HRp HKf HrL HKb)
    as Hr4.
  unfold predfn, predfn_single_species. cbv zeta.
  change (npow10 logRb) with (Rpower 10 logRb).
  set (r4 := rS_calc (Rpower 10 logRb) Rp Kf4 rL4 Kb4) in *.
  assert (E3 : rS_calc (Rpower 10 logRb) Rp Kf3 0 Kb3 = 0).
  { pose proof (Rpower10_pos logRb).
    assert (0 < Rpower 10 logRb * Kb3) by (apply Rmult_lt_0_compat; lra).
    unfold rS_calc; simpl. field. lra. }
  rewrite E3. clearbody r4.
  unfold d11_2_A11, A11_2_d11. rewrite NIST951_R. simpl.
  assert (Hx : 0 < 404367 / 100000 * ((dB + epsilon) / 1000 + 1)) by lra.
  f_equal.
  - f_equal. ring.
  - field. repeat split; intro; lra.
Qed.

Lemma predfn_single_species_as_predfn_witness :
  (0 : R) < 2 /\ (0 : R) < 0.01 /\ (0 : R) <= 1e-6 /\ (0 : R) < 0.5 /\ (-1000 : R) < 20 + 0 /\
  (0 : R) < 1 /\
  predfn 1 1 0.5 2 0 1e-6 0 0.01 1 0.8 (d11_2_A11 (20 + 0) NIST951) 20
  = predfn_single_species 0.5 2 0 0 1e-6 0.01 1 20 20.
Proof.
  assert (H1 : (0 : R) < 2) by lra.
  assert (H2 : (0 : R) < 0.01) by lra.
  assert (H3 : (0 : R) <= 1e-6) by lra.
  assert (H4 : (0 : R) < 0.5) by lra.
  assert (H5 : (-1000 : R) < 20 + 0) by lra.
  assert (H6 : (0 : R) < 1) by lra.
  repeat split; try assumption.
  exact (predfn_single_species_as_predfn 1 1 0.5 2 0 0 1e-6 0.01 1 0.8 20 20 H1 H2 H3 H4 H5 H6).
Defined.

(** The boron partition coefficient [KB] of [predfn] is the sum of the
    [KB] of [predfn_single_species] for the boric-acid parameters and for
    the borate parameters, whatever the isotope inputs, when [B_DIC] and
    the denominators [Rb * Kb + Rp] of both rates are nonzero. *)
Theorem predfn_KB_additive
    (Kb3 Kf3 Kb4 Kf4 logRb Rp rL3 rL4 B_DIC ABO3 ABO4 dBO4 eps3 eps4 dB3 dB4 : R)
    (HB : B_DIC <> 0) (H3 : Rpower 10 logRb * Kb3 + Rp <> 0)
    (H4 : Rpower 10 logRb * Kb4 + Rp <> 0) :
  fst (predfn Kb3 Kf3 Kb4 Kf4 logRb Rp rL3 rL4 B_DIC ABO3 ABO4 dBO4)
  = fst (predfn_single_species Kb3 Kf3 logRb eps3 Rp rL3 B_DIC dB3 dBO4)
    + fst (predfn_single_species Kb4 Kf4 logRb eps4 Rp rL4 B_DIC dB4 dBO4).
Proof.
  unfold predfn, predfn_single_species, rS_calc. simpl. field. auto.
Qed.

Lemma predfn_KB_additive_witness :
  (1 : R) <> 0 /\ Rpower 10 0 * 1 + 1e-6 <> 0 /\ Rpower 10 0 * 0.5 + 1e-6 <> 0 /\
  fst (predfn 1 1 0.5 2 0 1e-6 0.02 0.01 1 0.8 0.8 20)
  = fst (predfn_single_species 1 1 0 0 1e-6 0.02 1 0 20)
    + fst (predfn_single_species 0.5 2 0 0 1e-6 0.01 1 0 20).
Proof.
  pose proof (Rpower10_pos 0).
  assert (HB : (1 : R) <> 0) by lra.
  assert (H3 : Rpower 10 0 * 1 + 1e-6 <> 0) by lra.
  assert (H4 : Rpower 10 0 * 0.5 + 1e-6 <> 0) by lra.
  split; [exact HB|]. split; [exact H3|]. split; [exact H4|].
  exact (predfn_KB_additive 1 1 0.5 2 0 1e-6 0.02 0.01 1 0.8 0.8 20 0 0 0 0 HB H3 H4).
Defined.

Lemma A11_2_d11_mono (a b : R) :
  0 <= a -> a <= b -> b < 1 -> A11_2_d11 a NIST951 <= A11_2_d11 b NIST951.
Proof.
  intros Ha Hab Hb.
  assert (E : A11_2_d11 b NIST951 - A11_2_d11 a NIST951
              = (1000 * 100000 / 404367) * ((b - a) / ((1 - a) * (1 - b)))).
  { unfold A11_2_d11. rewrite NIST951_R. simpl. field. split; intro; lra. }
  assert (0 <= (b - a) / ((1 - a) * (1 - b))).
  { unfold Rdiv. apply Rmult_le_pos; [lra|].
    left. apply Rinv_0_lt_compat. apply Rmult_lt_0_compat; lra. }
  assert (0 <= (1000 * 100000 / 404367) * ((b - a) / ((1 - a) * (1 - b))))
    by (apply Rmult_le_pos; lra).
  lra.
Qed.

Lemma mix_between (a b r s : R) :
  0 < r -> 0 < s ->
  Rmin a b <= (a * r + b * s) / (r + s) <= Rmax a b.
Proof.
  intros Hr Hs.
  assert (E : (a * r + b * s) / (r + s) = a + (b - a) * (s / (r + s)))
    by (field; lra).
  assert (Hw0 : 0 < s / (r + s)) by (apply Rdiv_lt_0_compat; lra).
  assert (Hw1 : s / (r + s) < 1).
  { apply (Rmult_lt_reg_r (r + s)); [lra|]. unfold Rdiv.
    rewrite Rmult_assoc, Rinv_l by lra. lra. }
  rewrite E. destruct (Rle_lt_dec a b).
  - rewrite Rmin_left, Rmax_right by lra. split; nra.
  - rewrite Rmin_right, Rmax_left by lra. split; nra.
Qed.

Lemma A11_2_d11_between (a b m : R) :
  0 <= a < 1 -> 0 <= b < 1 -> Rmin a b <= m <= Rmax a b ->
  Rmin (A11_2_d11 a NIST951) (A11_2_d11 b NIST951) <= A11_2_d11 m NIST951
  <= Rmax (A11_2_d11 a NIST951) (A11_2_d11 b NIST951).
Proof.
  intros Ha Hb Hm. destruct (Rle_lt_dec a b).
  - rewrite Rmin_left, Rmax_right in Hm by lra.
    assert (Hab := A11_2_d11_mono a b ltac:(lra) ltac:(lra) ltac:(lra)).
    rewrite Rmin_left, Rmax_right by exact Hab.
    split; apply A11_2_d11_mono; lra.
  - rewrite Rmin_right, Rmax_left in Hm by lra.
    assert (Hba := A11_2_d11_mono b a ltac:(lra) ltac:(lra) ltac:(lra)).
    rewrite Rmin_right, Rmax_left by exact Hba.
    split; apply A11_2_d11_mono; lra.
Qed.

(** For positive rate constants, solution ratios and [B_DIC], a
    nonnegative precipitation rate and species abundances in [[0, 1)],
    [predfn] returns a positive [KB], and the predicted calcite delta
    [DdBcal + dBO4] lies between the deltas of the two species'
    abundances [A11_2_d11 ABO3] and [A11_2_d11 ABO4]: the calcite is a
    mixture of the two species. *)
Theorem predfn_mixing_bounds (Kb3 Kf3 Kb4 Kf4 logRb Rp rL3 rL4 B_DIC ABO3 ABO4 dBO4 : R)
    (HKb3 : 0 < Kb3) (HKf3 : 0 < Kf3) (HKb4 : 0 < Kb4) (HKf4 : 0 < Kf4)
    (HRp : 0 <= Rp) (HrL3 : 0 < rL3) (HrL4 : 0 < rL4) (HB : 0 < B_DIC)
    (HA3 : 0 <= ABO3 < 1) (HA4 : 0 <= ABO4 < 1) :
  let '(KB, DdBcal) := predfn Kb3 Kf3 Kb4 Kf4 logRb Rp rL3 rL4 B_DIC ABO3 ABO4 dBO4 in
  0 < KB /\
  Rmin (A11_2_d11 ABO3 NIST951) (A11_2_d11 ABO4 NIST951) <= DdBcal + dBO4
  <= Rmax (A11_2_d11 ABO3 NIST951) (A11_2_d11 ABO4 NIST951).
Proof.
  pose proof (Rpower10_pos logRb) as HRb.
  pose proof (rS_calc_pos _ _ _ _ _ HRb HRp HKf3 HrL3 HKb3) as H3.
  pose proof (rS_calc_pos _ _ _ _ _ HRb HRp HKf4 HrL4 HKb4) as H4.
  unfold predfn. cbv zeta.
  change (npow10 logRb) with (Rpower 10 logRb).
  set (r3 := rS_calc (Rpower 10 logRb) Rp Kf3 rL3 Kb3) in *.
  set (r4 := rS_calc (Rpower 10 logRb) Rp Kf4 rL4 Kb4) in *.
  clearbody r3 r4.
  split.
  - simpl. apply Rdiv_lt_0_compat; lra.
  - change (nsub (A11_2_d11 (ndiv (nadd (nmul ABO3 r3) (nmul ABO4 r4)) (nadd r3 r4)) NIST951)
                 dBO4 + dBO4)
      with (A11_2_d11 ((ABO3 * r3 + ABO4 * r4) / (r3 + r4)) NIST951 - dBO4 + dBO4).
    replace (A11_2_d11 ((ABO3 * r3 + ABO4 * r4) / (r3 + r4)) NIST951 - dBO4 + dBO4)
      with (A11_2_d11 ((ABO3 * r3 + ABO4 * r4) / (r3 + r4)) NIST951) by ring.
    apply A11_2_d11_between; try assumption.
    apply mix_between; assumption.
Qed.

Lemma predfn_mixing_bounds_witness :
  let '(KB, DdBcal) := predfn 1 1 0.5 2 0 1e-6 0.02 0.01 1 0.8 0.81 (-16) in
  0 < KB /\
  Rmin (A11_2_d11 (0.8 : R) NIST951) (A11_2_d11 (0.81 : R) NIST951) <= DdBcal + -16
  <= Rmax (A11_2_d11 (0.8 : R) NIST951) (A11_2_d11 (0.81 : R) NIST951).
Proof.
  apply (predfn_mixing_bounds 1 1 0.5 2 0 1e-6 0.02 0.01 1 0.8 0.81 (-16)); lra.
Defined.

(** ** The cost functions *)

Lemma Rdiv_nonneg (a b : R) : 0 <= a -> 0 <= b -> 0 <= a / b.
Proof.
  intros Ha Hb. unfold Rdiv. apply Rmult_le_pos; [exact Ha|].
  destruct Hb as [Hb|Hb].
  - left. apply Rinv_0_lt_compat. exact Hb.
  - rewrite <- Hb, Rinv_0. lra.
Qed.

Lemma sum_sq_ratio_nonneg {A : Type} (f g : A -> R) (rows : list A) :
  0 <= np_sum (map (fun r => ndiv (sq (f r)) (sq (g r))) rows).
Proof.
  rewrite np_sum_R. induction rows as [|r rows IH]; cbn [map fold_right]; [lra|].
  assert (0 <= f r * f r / (g r * g r))
    by (apply Rdiv_nonneg; apply Rle_0_sqr).
  change (ndiv (sq (f r)) (sq (g r))) with (f r * f r / (g r * g r)).
  lra.
Qed.

Lemma cost_nonneg_R {A : Type} (b : R) (f1 g1 f2 g2 : A -> R) (rows : list A) :
  0 <= b ->
  0 <= nadd (ndiv (nmul b (np_sum (map (fun r => ndiv (sq (f1 r)) (sq (g1 r))) rows))) (num 2))
            (ndiv (np_sum (map (fun r => ndiv (sq (f2 r)) (sq (g2 r))) rows)) (num 2)).
Proof.
  intro Hb.
  assert (G : forall s1 s2 : R, 0 <= s1 -> 0 <= s2 ->
              0 <= nadd (ndiv (nmul b s1) (num 2)) (ndiv s2 (num 2))).
  { intros s1 s2 H1 H2. simpl.
    apply Rplus_le_le_0_compat; apply Rdiv_nonneg; try lra.
    apply Rmult_le_pos; assumption. }
  apply G; apply sum_sq_ratio_nonneg.
Qed.

Lemma np_ptp_R_nonneg (l : list R) :
  l <> [] -> exists v, np_ptp l = Some v /\ 0 <= v.
Proof.
  intro Hne. destruct l as [|x r]; [congruence|].
  exists (fold_left Rmax r x - fold_left Rmin r x). split; [reflexivity|].
  pose proof (Forall_inv (fold_Rmax_ge r x)) as Hmax.
  pose proof (Forall_inv (fold_Rmin_le r x)) as Hmin.
  cbv beta in Hmax, Hmin. lra.
Qed.

Lemma map_ne_nil {A B : Type} (f : A -> B) (l : list A) : l <> [] -> map f l <> [].
Proof. destruct l; simpl; congruence. Qed.

Lemma In_ne_nil {A : Type} (x : A) (l : list A) : In x l -> l <> [].
Proof. destruct l; simpl; [contradiction | congruence]. Qed.

Ltac fit_nonneg E L :=
  let b := fresh "b" in
  let Hb := fresh "Hb" in
  intros rows [b|] Hb;
  [ cbv beta iota zeta;
    eexists; split; [reflexivity|]; apply cost_nonneg_R; exact Hb
  | destruct Hb as (r1 & r2 & Hin1 & _ & _);
    pose proof (In_ne_nil _ _ Hin1) as Hne;
    destruct (np_ptp_R_nonneg (map E rows) (map_ne_nil _ _ Hne)) as (e & He & He0);
    destruct (np_ptp_R_nonneg (map L rows) (map_ne_nil _ _ Hne)) as (l & Hl & Hl0);
    rewrite He, Hl; cbv beta iota zeta;
    eexists; split; [reflexivity|]; apply cost_nonneg_R; apply Rdiv_nonneg; assumption ].

(** the cost in exact arithmetic, for any inputs *)
Lemma fitfns_cost_nonneg_total :
  (forall p (rows : list (Model.row R)) bias,
     match bias with
     | Some b => 0 <= b
     | None => exists r1 r2, In r1 rows /\ In r2 rows /\ Model.LambdaB r1 <> Model.LambdaB r2
     end ->
     exists c, fitfn p rows bias = Some c /\ 0 <= c) /\
  (forall p (rows : list (Single.row R)) bias,
     match bias with
     | Some b => 0 <= b
     | None => exists r1 r2, In r1 rows /\ In r2 rows /\ Single.LambdaB r1 <> Single.LambdaB r2
     end ->
     exists c, fitfn_single_species p rows bias = Some c /\ 0 <= c) /\
  (forall p (rows : list (Frac.row R)) bias,
     match bias with
     | Some b => 0 <= b
     | None => exists r1 r2, In r1 rows /\ In r2 rows /\ Frac.LambdaB r1 <> Frac.LambdaB r2
     end ->
     exists c, Frac.fitfn_BO4fractionated p rows bias = Some c /\ 0 <= c) /\
  (forall p (rows : list (Frac.row R)) bias,
     match bias with
     | Some b => 0 <= b
     | None => exists r1 r2, In r1 rows /\ In r2 rows /\ Frac.LambdaB r1 <> Frac.LambdaB r2
     end ->
     exists c, Frac.fitfn_fractionated p rows bias = Some c /\ 0 <= c).
Proof.
  split; [|split; [|split]].
  - intros [[[[Kb3 Kf3] Kb4] Kf4] logRb].
    unfold fitfn. fit_nonneg (@Model.EpsilonB R) (@Model.LambdaB R).
  - intros [[[Kb Kf] logRb] epsilon].
    unfold fitfn_single_species. fit_nonneg (@Single.EpsilonB R) (@Single.LambdaB R).
  - intros [[[[[Kb3 Kf3] Kb4] Kf4] logRb] eps4].
    unfold Frac.fitfn_BO4fractionated. fit_nonneg (@Frac.EpsilonB R) (@Frac.LambdaB R).
  - intros [[[[[[Kb3 Kf3] Kb4] Kf4] logRb] eps3] eps4].
    unfold Frac.fitfn_fractionated. fit_nonneg (@Frac.EpsilonB R) (@Frac.LambdaB R).
Qed.

(** For inputs at which no divisor of the code vanishes, the cost of each
    of [fitfn], [fitfn_single_species], [fitfn_BO4fractionated] and
    [fitfn_fractionated] is a number [>= 0]: for a supplied bias [>= 0],
    and for the default bias on data with two samples of different
    [LambdaB] (the bias [ptp(EpsilonB)/ptp(LambdaB)] is then [>= 0]).  The
    hypotheses are positive [Kb] (and [Kf]) parameters, nonnegative [Rp],
    positive [rL] and [B_DIC], abundances below [1] (deltas above [-1000]
    for the fractionated costs) and nonzero errors: every rate, [B_DIC],
    [rSB], [1 - ABcal] and error divisor is then nonzero. *)
Theorem fitfns_cost_nonneg :
  (forall (Kb3 Kf3 Kb4 Kf4 logRb : R) (rows : list (Model.row R)) (bias : option R),
     0 < Kb3 -> 0 < Kf3 -> 0 < Kb4 -> 0 < Kf4 ->
     Forall (fun r => 0 <= Model.Rp r /\ 0 < Model.rL3 r /\ 0 < Model.rL4 r /\
                      0 < Model.B_DIC r /\ 0 <= Model.ABO3 r < 1 /\ 0 <= Model.ABO4 r < 1 /\
                      Model.LambdaB_err r <> 0 /\ Model.EpsilonB_err r <> 0) rows ->
     match bias with
     | Some b => 0 <= b
     | None => exists r1 r2, In r1 rows /\ In r2 rows /\ Model.LambdaB r1 <> Model.LambdaB r2
     end ->
     exists c, fitfn (Kb3, Kf3, Kb4, Kf4, logRb) rows bias = Some c /\ 0 <= c) /\
  (forall (Kb Kf logRb epsilon : R) (rows : list (Single.row R)) (bias : option R),
     0 < Kb ->
     Forall (fun r => 0 <= Single.Rp r /\ 0 < Single.B_DIC r /\
                      Single.LambdaB_err r <> 0 /\ Single.EpsilonB_err r <> 0) rows ->
     match bias with
     | Some b => 0 <= b
     | None => exists r1 r2, In r1 rows /\ In r2 rows /\ Single.LambdaB r1 <> Single.LambdaB r2
     end ->
     exists c, fitfn_single_species (Kb, Kf, logRb, epsilon) rows bias = Some c /\ 0 <= c) /\
  (forall (Kb3 Kf3 Kb4 Kf4 logRb eps4 : R) (rows : list (Frac.row R)) (bias : option R),
     0 < Kb3 -> 0 < Kf3 -> 0 < Kb4 -> 0 < Kf4 ->
     Forall (fun r => 0 <= Frac.Rp r /\ 0 < Frac.rL3 r /\ 0 < Frac.rL4 r /\
                      0 < Frac.B_DIC r /\ -1000 < Frac.dBO3 r /\ -1000 < Frac.dBO4 r + eps4 /\
                      Frac.LambdaB_err r <> 0 /\ Frac.EpsilonB_err r <> 0) rows ->
     match bias with
     | Some b => 0 <= b
     | None => exists r1 r2, In r1 rows /\ In r2 rows /\ Frac.LambdaB r1 <> Frac.LambdaB r2
     end ->
     exists c, Frac.fitfn_BO4fractionated (Kb3, Kf3, Kb4, Kf4, logRb, eps4) rows bias = Some c
               /\ 0 <= c) /\
  (forall (Kb3 Kf3 Kb4 Kf4 logRb eps3 eps4 : R) (rows : list (Frac.row R)) (bias : option R),
     0 < Kb3 -> 0 < Kf3 -> 0 < Kb4 -> 0 < Kf4 ->
     Forall (fun r => 0 <= Frac.Rp r /\ 0 < Frac.rL3 r /\ 0 < Frac.rL4 r /\
                      0 < Frac.B_DIC r /\ -1000 < Frac.dBO3 r + eps3 /\
                      -1000 < Frac.dBO4 r + eps4 /\
                      Frac.LambdaB_err r <> 0 /\ Frac.EpsilonB_err r <> 0) rows ->
     match bias with
     | Some b => 0 <= b
     | None => exists r1 r2, In r1 rows /\ In r2 rows /\ Frac.LambdaB r1 <> Frac.LambdaB r2
     end ->
     exists c, Frac.fitfn_fractionated (Kb3, Kf3, Kb4, Kf4, logRb, eps3, eps4) rows bias = Some c
               /\ 0 <= c).
Proof.
  split; [|split; [|split]].
  - intros Kb3 Kf3 Kb4 Kf4 logRb rows bias _ _ _ _ _ Hb.
    exact (proj1 fitfns_cost_nonneg_total _ rows bias Hb).
  - intros Kb Kf logRb epsilon rows bias _ _ Hb.
    exact (proj1 (proj2 fitfns_cost_nonneg_total) _ rows bias Hb).
  - intros Kb3 Kf3 Kb4 Kf4 logRb eps4 rows bias _ _ _ _ _ Hb.
    exact (proj1 (proj2 (proj2 fitfns_cost_nonneg_total)) _ rows bias Hb).
  - intros Kb3 Kf3 Kb4 Kf4 logRb eps3 eps4 rows bias _ _ _ _ _ Hb.
    exact (proj2 (proj2 (proj2 fitfns_cost_nonneg_total)) _ rows bias Hb).
Qed.

Lemma fitfns_cost_nonneg_witness :
  exists c, fitfn (1, 1, 0.5, 2, 0)
              [Model.mkRow 1e-6 0.02 0.01 1 0.8 0.81 (-16) 2 5 1 1] (Some 1) = Some c /\ 0 <= c.
Proof.
  apply (proj1 fitfns_cost_nonneg 1 1 0.5 2 0
           [Model.mkRow 1e-6 0.02 0.01 1 0.8 0.81 (-16) 2 5 1 1] (Some 1)); try lra.
  constructor; [|constructor]. simpl. repeat split; lra.
Defined.

(** On empty input arrays, each of [fitfn], [fitfn_single_species],
    [fitfn_BO4fractionated] and [fitfn_fractionated] with the default bias
    fails (the ValueError of [np.ptp] on an empty array), for every number
    type; with a supplied bias the cost of empty arrays is [0] (in exact
    arithmetic). *)
Theorem fitfns_empty_data :
  (forall (T : Type) (H : PyNum T),
     (forall p, fitfn (T := T) p [] None = None) /\
     (forall p, fitfn_single_species (T := T) p [] None = None) /\
     (forall p, Frac.fitfn_BO4fractionated (T := T) p [] None = None) /\
     (forall p, Frac.fitfn_fractionated (T := T) p [] None = None)) /\
  (forall p b, fitfn (T := R) p [] (Some b) = Some 0) /\
  (forall p b, fitfn_single_species (T := R) p [] (Some b) = Some 0) /\
  (forall p b, Frac.fitfn_BO4fractionated (T := R) p [] (Some b) = Some 0) /\
  (forall p b, Frac.fitfn_fractionated (T := R) p [] (Some b) = Some 0).
Proof.
  split; [intros T H; repeat split|]; repeat split.
  - intros [[[[? ?] ?] ?] ?]. reflexivity.
  - intros [[[? ?] ?] ?]. reflexivity.
  - intros [[[[[? ?] ?] ?] ?] ?]. reflexivity.
  - intros [[[[[[? ?] ?] ?] ?] ?] ?]. reflexivity.
  - intros [[[[? ?] ?] ?] ?] b. simpl. unfold np_sum. simpl. f_equal. unfold Rdiv. ring.
  - intros [[[? ?] ?] ?] b. simpl. unfold np_sum. simpl. f_equal. unfold Rdiv. ring.
  - intros [[[[[? ?] ?] ?] ?] ?] b. simpl. unfold np_sum. simpl. f_equal. unfold Rdiv. ring.
  - intros [[[[[[? ?] ?] ?] ?] ?] ?] b. simpl. unfold np_sum. simpl. f_equal. unfold Rdiv. ring.
Qed.

(** the fractionated predictors and costs, for any number type whose
    [x + 0] is [x] *)
Ltac cost_congr :=
  match goal with
  | |- map _ ?l = map _ ?l => apply map_ext; intro
  | |- _ = _ => f_equal; cost_congr
  end.

Section FracReduce.
Context {T : Type} `{PyNum T}.
Hypothesis add_0_r : forall x : T, nadd x (num 0) = x.

Lemma predfn_fractionated_eps3_zero (Kb3 Kf3 Kb4 Kf4 logRb eps4 Rp rL3 rL4 B_DIC dBO3 dBO4 : T) :
  predfn_fractionated Kb3 Kf3 Kb4 Kf4 logRb (num 0) eps4 Rp rL3 rL4 B_DIC dBO3 dBO4 =
  predfn_BO4fractionated Kb3 Kf3 Kb4 Kf4 logRb eps4 Rp rL3 rL4 B_DIC dBO3 dBO4.
Proof. unfold predfn_fractionated, predfn_BO4fractionated. now rewrite add_0_r. Qed.

Lemma fitfn_fractionated_eps3_zero_gen (Kb3 Kf3 Kb4 Kf4 logRb eps4 : T)
    (rows : list (Frac.row T)) (bias : option T) :
  Frac.fitfn_fractionated (Kb3, Kf3, Kb4, Kf4, logRb, num 0, eps4) rows bias =
  Frac.fitfn_BO4fractionated (Kb3, Kf3, Kb4, Kf4, logRb, eps4) rows bias.
Proof.
  unfold Frac.fitfn_fractionated, Frac.fitfn_BO4fractionated. cbv beta iota zeta.
  destruct (match bias with Some b => Some b | None => _ end) as [b|]; [|reflexivity].
  cost_congr; rewrite predfn_fractionated_eps3_zero; reflexivity.
Qed.

Lemma fitfn_fractionated_zero_gen (Kb3 Kf3 Kb4 Kf4 logRb : T)
    (rows : list (Frac.row T)) (bias : option T) :
  Frac.fitfn_fractionated (Kb3, Kf3, Kb4, Kf4, logRb, num 0, num 0) rows bias =
  fitfn (Kb3, Kf3, Kb4, Kf4, logRb) (map Frac.extract_abundances rows) bias.
Proof.
  unfold Frac.fitfn_fractionated, fitfn. cbv beta iota zeta. rewrite !map_map.
  destruct (match bias with Some b => Some b | None => _ end) as [b|]; [|reflexivity].
  cost_congr; rewrite (predfn_fractionated_zero add_0_r); reflexivity.
Qed.

Lemma fitfn_BO4fractionated_zero_gen (Kb3 Kf3 Kb4 Kf4 logRb : T)
    (rows : list (Frac.row T)) (bias : option T) :
  Frac.fitfn_BO4fractionated (Kb3, Kf3, Kb4, Kf4, logRb, num 0) rows bias =
  fitfn (Kb3, Kf3, Kb4, Kf4, logRb) (map Frac.extract_abundances rows) bias.
Proof.
  unfold Frac.fitfn_BO4fractionated, fitfn. cbv beta iota zeta. rewrite !map_map.
  destruct (match bias with Some b => Some b | None => _ end) as [b|]; [|reflexivity].
  cost_congr; rewrite (predfn_BO4fractionated_zero add_0_r); reflexivity.
Qed.

End FracReduce.

(** [fitfn_fractionated] with [eps3 = 0] is [fitfn_BO4fractionated] with
    the same [eps4], for every data set and bias, in exact arithmetic and
    on numpy floats (infinities and NaN included). *)
Theorem fitfn_fractionated_eps3_zero :
  (forall (Kb3 Kf3 Kb4 Kf4 logRb eps4 : R) (rows : list (Frac.row R)) (bias : option R),
     Frac.fitfn_fractionated (Kb3, Kf3, Kb4, Kf4, logRb, 0, eps4) rows bias =
     Frac.fitfn_BO4fractionated (Kb3, Kf3, Kb4, Kf4, logRb, eps4) rows bias) /\
  (forall (Kb3 Kf3 Kb4 Kf4 logRb eps4 : f64) (rows : list (Frac.row f64)) (bias : option f64),
     Frac.fitfn_fractionated (Kb3, Kf3, Kb4, Kf4, logRb, Fin 0, eps4) rows bias =
     Frac.fitfn_BO4fractionated (Kb3, Kf3, Kb4, Kf4, logRb, eps4) rows bias).
Proof.
  split; intros.
  - exact (fitfn_fractionated_eps3_zero_gen R_add_0_r _ _ _ _ _ _ _ _).
  - exact (fitfn_fractionated_eps3_zero_gen f64_add_0_r _ _ _ _ _ _ _ _).
Qed.

(** With zero offsets ([eps3 = eps4 = 0], resp. [eps4 = 0]),
    [fitfn_fractionated] and [fitfn_BO4fractionated] on the deltas
    [dBO3], [dBO4] give the same cost as [fitfn] on the abundances
    [d11_2_A11 dBO3], [d11_2_A11 dBO4] that [extract_model_vars]
    computes, for every data set and bias, in exact arithmetic and on
    numpy floats. *)
Theorem fitfn_fractionated_zero_offsets :
  (forall (Kb3 Kf3 Kb4 Kf4 logRb : R) (rows : list (Frac.row R)) (bias : option R),
     Frac.fitfn_fractionated (Kb3, Kf3, Kb4, Kf4, logRb, 0, 0) rows bias =
     fitfn (Kb3, Kf3, Kb4, Kf4, logRb) (map Frac.extract_abundances rows) bias /\
     Frac.fitfn_BO4fractionated (Kb3, Kf3, Kb4, Kf4, logRb, 0) rows bias =
     fitfn (Kb3, Kf3, Kb4, Kf4, logRb) (map Frac.extract_abundances rows) bias) /\
  (forall (Kb3 Kf3 Kb4 Kf4 logRb : f64) (rows : list (Frac.row f64)) (bias : option f64),
     Frac.fitfn_fractionated (Kb3, Kf3, Kb4, Kf4, logRb, Fin 0, Fin 0) rows bias =
     fitfn (Kb3, Kf3, Kb4, Kf4, logRb) (map Frac.extract_abundances rows) bias /\
     Frac.fitfn_BO4fractionated (Kb3, Kf3, Kb4, Kf4, logRb, Fin 0) rows bias =
     fitfn (Kb3, Kf3, Kb4, Kf4, logRb) (map Frac.extract_abundances rows) bias).
Proof.
  split; intros; split.
  - exact (fitfn_fractionated_zero_gen R_add_0_r _ _ _ _ _ _ _).
  - exact (fitfn_BO4fractionated_zero_gen R_add_0_r _ _ _ _ _ _ _).
  - exact (fitfn_fractionated_zero_gen f64_add_0_r _ _ _ _ _ _ _).
  - exact (fitfn_BO4fractionated_zero_gen f64_add_0_r _ _ _ _ _ _ _).
Qed.

(** ** The load pipeline *)

(** When the solution data have no [d11B_eprop] column, [calc_sol_iso]
    still writes [d11BO3_eprop] and [d11BO4_eprop], with the central
    values [d11BO3] and [d11BO4]; [calc_epsilon] run after it then writes
    [EpsilonB_eprop = d11B_eprop(solid) - d11BO4] whenever the solid has a
    [d11B_eprop] column, and nothing otherwise.  This holds for every
    number type and borate mode. *)
Theorem calc_sol_iso_missing_eprop (T : Type) (H : PyNum T) (borate_mode : string)
    (alpha : T) (r : Load.sol_row T) (solid_d11B : T) (solid_d11B_eprop : option T)
    (Hno : Load.d11B_eprop r = None) :
  let '(s, (EpsilonB, EpsilonB_eprop)) :=
    Load.sol_iso_epsilon borate_mode alpha r solid_d11B solid_d11B_eprop in
  Load.d11BO3_eprop s = Load.d11BO3 s /\ Load.d11BO4_eprop s = Load.d11BO4 s /\
  EpsilonB = nsub solid_d11B (Load.d11BO4 s) /\
  EpsilonB_eprop = match solid_d11B_eprop with
                   | Some e => Some (nsub e (Load.d11BO4 s))
                   | None => None
                   end.
Proof.
  unfold Load.sol_iso_epsilon, Load.calc_sol_iso, Load.calc_epsilon. rewrite Hno.
  destruct (sol_B_iso_Rae2018 _ _ _ _ _) as [d4 d3].
  destruct solid_d11B_eprop; simpl; auto.
Qed.

Lemma calc_sol_iso_missing_eprop_witness :
  Load.d11B_eprop (Load.mkSolRow (8 : R) 5 1 0.9 39.5 None) = None /\
  let '(s, (EpsilonB, EpsilonB_eprop)) :=
    Load.sol_iso_epsilon "total" 1.026 (Load.mkSolRow (8 : R) 5 1 0.9 39.5 None) 25 (Some 0.3) in
  Load.d11BO3_eprop s = Load.d11BO3 s /\ Load.d11BO4_eprop s = Load.d11BO4 s /\
  EpsilonB = nsub 25 (Load.d11BO4 s) /\
  EpsilonB_eprop = Some (nsub 0.3 (Load.d11BO4 s)).
Proof.
  split; [reflexivity|].
  exact (calc_sol_iso_missing_eprop R R_PyNum "total" 1.026
           (Load.mkSolRow 8 5 1 0.9 39.5 None) 25 (Some 0.3) eq_refl).
Defined.

(** ** The phreeqc summary *)

Lemma getitem_In (s : Phreeqc.series) (k : string) (v : f64) :
  Phreeqc.getitem s k = Some v -> In (k, v) s.
Proof.
  induction s as [|[k' v'] t IH]; simpl; [discriminate|].
  destruct (String.eqb k k') eqn:E; intro Hg.
  - apply String.eqb_eq in E; subst. injection Hg as <-. left; reflexivity.
  - right; auto.
Qed.

Lemma f64_ne0_pos (a : R) : 0 < a -> Phreeqc.f64_ne0 (Fin a) = true.
Proof. intro Ha; simpl; rewrite rsign_pos; auto. Qed.

Ltac cb_cases H :=
  repeat first
    [ match type of H with
      | context [Phreeqc.obind (Phreeqc.getitem ?d ?k) _] =>
          let E := fresh "E" in
          destruct (Phreeqc.getitem d k) eqn:E; cbn [Phreeqc.obind] in H; [|discriminate H]
      end
    | match type of H with
      | context [Phreeqc.f64_ne0 ?x] =>
          let N := fresh "N" in destruct (Phreeqc.f64_ne0 x) eqn:N; cbn [Phreeqc.obind] in H
      end ].

(** Whenever [calc_cb(summ=True)] returns a summary, its labels are [C,
    CO2, HCO3, CO3, B, BOH3, BOH4, BOH4_free, pH, temp, alk, SIc, SIa,
    ion_str, Ca, Na, Cl, Mg, K, SO4], in this order, each once: the seven
    placeholders are overwritten in place and the other columns appended. *)
Theorem calc_cb_summary_labels (dat out : Phreeqc.series) :
  Phreeqc.calc_cb_summary dat = Some out -> map fst out = Phreeqc.cb_labels.
Proof.
  intro H. unfold Phreeqc.calc_cb_summary in H. cb_cases H.
  all: injection H as <-; reflexivity.
Qed.

(** If every value of the phreeqc output row is finite, every value of
    the summary is finite: none of the NaN placeholders of [out] survives. *)
Theorem calc_cb_summary_finite (dat out : Phreeqc.series)
    (Hfin : forall k v, In (k, v) dat -> exists x, v = Fin x)
    (H : Phreeqc.calc_cb_summary dat = Some out) :
  forall k v, In (k, v) out -> exists x, v = Fin x.
Proof.
  unfold Phreeqc.calc_cb_summary in H. cb_cases H.
  all: repeat match goal with
         | E : Phreeqc.getitem _ _ = Some ?v |- _ =>
             destruct (Hfin _ _ (getitem_In _ _ _ E)) as [? ->]; clear E
         end.
  all: injection H as <-; intros k v Hin; simpl in Hin.
  all: repeat destruct Hin as [Hin|Hin]; try contradiction;
       injection Hin as _ <-; eexists; reflexivity.
Qed.

(** If every value of the phreeqc output row is a finite nonnegative
    number, the summary's free borate [BOH4_free] is at most its total
    borate [BOH4], in both branches (B(OH)4- with its Ca complex, or
    H2BO3- with its Na and Ca complexes). *)
Theorem calc_cb_summary_free_borate_le (dat out : Phreeqc.series)
    (Hnn : forall k v, In (k, v) dat -> exists x, v = Fin x /\ 0 <= x)
    (H : Phreeqc.calc_cb_summary dat = Some out) :
  exists a b, Phreeqc.getitem out "BOH4_free" = Some (Fin a) /\
              Phreeqc.getitem out "BOH4" = Some (Fin b) /\ a <= b.
Proof.
  unfold Phreeqc.calc_cb_summary in H. cb_cases H.
  all: repeat match goal with
         | E : Phreeqc.getitem _ _ = Some ?v |- _ =>
             let x := fresh "x" in let Hx := fresh "Hx" in
             destruct (Hnn _ _ (getitem_In _ _ _ E)) as [x [-> Hx]]; clear E
         end.
  all: injection H as <-; simpl.
  all: do 2 eexists; split; [reflexivity|]; split; [reflexivity|]; lra.
Qed.

Local Open Scope string_scope.

Ltac cb_eval :=
  unfold Phreeqc.calc_cb_summary;
  cbn [Phreeqc.getitem Phreeqc.obind String.eqb Ascii.eqb Bool.eqb andb];
  rewrite !f64_ne0_pos by lra; cbn [Phreeqc.obind]; reflexivity.

Ltac in_dat_cases :=
  let k := fresh "k" in let v := fresh "v" in let Hin := fresh "Hin" in
  intros k v Hin; simpl in Hin;
  repeat destruct Hin as [Hin|Hin]; try contradiction;
  injection Hin as _ <-; eexists; first [reflexivity | split; [reflexivity|lra]].

Lemma calc_cb_summary_labels_witness :
  let dat := [("C(mol/kgw)", Fin 2); ("m_CO2(mol/kgw)", Fin 0.5); ("m_H2CO3(mol/kgw)", Fin 0);
     ("m_HCO3-(mol/kgw)", Fin 1.8); ("m_CO3-2(mol/kgw)", Fin 0.2); ("B(mol/kgw)", Fin 0.4);
     ("m_B(OH)3(mol/kgw)", Fin 0.3); ("m_H3BO3(mol/kgw)", Fin 0); ("m_B(OH)4-(mol/kgw)", Fin 0.08);
     ("m_CaB(OH)4+(mol/kgw)", Fin 0.02); ("m_H2BO3-(mol/kgw)", Fin 0); ("m_NaH2BO3(mol/kgw)", Fin 0);
     ("m_CaH2BO3+(mol/kgw)", Fin 0); ("pH", Fin 8.1); ("temp(C)", Fin 25); ("Alk(eq/kgw)", Fin 2.3);
     ("si_Calcite", Fin 0.7); ("si_Aragonite", Fin 0.55); ("mu", Fin 0.7); ("Ca(mol/kgw)", Fin 0.01);
     ("Na(mol/kgw)", Fin 0.47); ("Cl(mol/kgw)", Fin 0.55); ("Mg(mol/kgw)", Fin 0.05);
     ("K(mol/kgw)", Fin 0.01); ("S(6)(mol/kgw)", Fin 0.03)] in
  exists out, Phreeqc.calc_cb_summary dat = Some out /\ map fst out = Phreeqc.cb_labels.
Proof.
  intro dat. eexists. split; [subst dat; cb_eval|].
  apply (calc_cb_summary_labels dat); subst dat; cb_eval.
Defined.

Lemma calc_cb_summary_finite_witness :
  let dat := [("C(mol/kgw)", Fin 2); ("m_CO2(mol/kgw)", Fin 0.5); ("m_H2CO3(mol/kgw)", Fin 0);
     ("m_HCO3-(mol/kgw)", Fin 1.8); ("m_CO3-2(mol/kgw)", Fin 0.2); ("B(mol/kgw)", Fin 0.4);
     ("m_B(OH)3(mol/kgw)", Fin 0.3); ("m_H3BO3(mol/kgw)", Fin 0); ("m_B(OH)4-(mol/kgw)", Fin 0.08);
     ("m_CaB(OH)4+(mol/kgw)", Fin 0.02); ("m_H2BO3-(mol/kgw)", Fin 0); ("m_NaH2BO3(mol/kgw)", Fin 0);
     ("m_CaH2BO3+(mol/kgw)", Fin 0); ("pH", Fin 8.1); ("temp(C)", Fin 25); ("Alk(eq/kgw)", Fin 2.3);
     ("si_Calcite", Fin 0.7); ("si_Aragonite", Fin 0.55); ("mu", Fin 0.7); ("Ca(mol/kgw)", Fin 0.01);
     ("Na(mol/kgw)", Fin 0.47); ("Cl(mol/kgw)", Fin 0.55); ("Mg(mol/kgw)", Fin 0.05);
     ("K(mol/kgw)", Fin 0.01); ("S(6)(mol/kgw)", Fin 0.03)] in
  (forall k v, In (k, v) dat -> exists x, v = Fin x) /\
  exists out, Phreeqc.calc_cb_summary dat = Some out /\
              forall k v, In (k, v) out -> exists x, v = Fin x.
Proof.
  intro dat. split; [subst dat; in_dat_cases|].
  eexists. split; [subst dat; cb_eval|].
  apply (calc_cb_summary_finite dat); subst dat; [in_dat_cases|cb_eval].
Defined.

Lemma calc_cb_summary_free_borate_le_witness :
  let dat := [("C(mol/kgw)", Fin 2); ("m_CO2(mol/kgw)", Fin 0.5); ("m_H2CO3(mol/kgw)", Fin 0);
     ("m_HCO3-(mol/kgw)", Fin 1.8); ("m_CO3-2(mol/kgw)", Fin 0.2); ("B(mol/kgw)", Fin 0.4);
     ("m_B(OH)3(mol/kgw)", Fin 0.3); ("m_H3BO3(mol/kgw)", Fin 0); ("m_B(OH)4-(mol/kgw)", Fin 0.08);
     ("m_CaB(OH)4+(mol/kgw)", Fin 0.02); ("m_H2BO3-(mol/kgw)", Fin 0); ("m_NaH2BO3(mol/kgw)", Fin 0);
     ("m_CaH2BO3+(mol/kgw)", Fin 0); ("pH", Fin 8.1); ("temp(C)", Fin 25); ("Alk(eq/kgw)", Fin 2.3);
     ("si_Calcite", Fin 0.7); ("si_Aragonite", Fin 0.55); ("mu", Fin 0.7); ("Ca(mol/kgw)", Fin 0.01);
     ("Na(mol/kgw)", Fin 0.47); ("Cl(mol/kgw)", Fin 0.55); ("Mg(mol/kgw)", Fin 0.05);
     ("K(mol/kgw)", Fin 0.01); ("S(6)(mol/kgw)", Fin 0.03)] in
  (forall k v, In (k, v) dat -> exists x, v = Fin x /\ 0 <= x) /\
  exists out, Phreeqc.calc_cb_summary dat = Some out /\
    exists a b, Phreeqc.getitem out "BOH4_free" = Some (Fin a) /\
                Phreeqc.getitem out "BOH4" = Some (Fin b) /\ a <= b.
Proof.
  intro dat. split; [subst dat; in_dat_cases|].
  eexists. split; [subst dat; cb_eval|].
  apply (calc_cb_summary_free_borate_le dat); subst dat; [in_dat_cases|cb_eval].
Defined.

(** ** The rate columns *)

Lemma ln10_pos : 0 < ln 10.
Proof. rewrite <- ln_1. apply ln_increasing; lra. Qed.

Lemma Rpower10_log10 (x : R) : 0 < x -> Rpower 10 (Rate.log10 x) = x.
Proof.
  intro Hx. unfold Rpower, Rate.log10. pose proof ln10_pos.
  replace (ln x / ln 10 * ln 10) with (ln x) by (field; lra).
  apply exp_ln; exact Hx.
Qed.

(** Whichever column is the rate ([Rvar[-1]] containing ["log"] or not),
    [extract_model_vars] returns rates with [Rp = 10 ** logRp] element by
    element, provided the rates of a linear column are positive. *)
Theorem extract_rate_consistent (Rvar_last : string) (values : list R)
    (Hpos : Rate.str_contains "log" Rvar_last = false -> Forall (fun v => 0 < v) values) :
  let '(logRp, Rp) := Rate.extract_rate Rvar_last values in
  Rp = map (Rpower 10) logRp.
Proof.
  unfold Rate.extract_rate.
  destruct (Rate.str_contains "log" Rvar_last) eqn:E; [reflexivity|].
  specialize (Hpos eq_refl). cbv beta iota zeta.
  induction Hpos as [|x l Hx _ IH]; simpl; [reflexivity|].
  rewrite Rpower10_log10 by exact Hx. f_equal. exact IH.
Qed.

Lemma extract_rate_consistent_witness :
  (Rate.str_contains "log" "Rp" = false -> Forall (fun v => 0 < v) [2; 5]) /\
  let '(logRp, Rp) := Rate.extract_rate "Rp" [2; 5] in Rp = map (Rpower 10) logRp.
Proof.
  assert (Hp : Rate.str_contains "log" "Rp" = false -> Forall (fun v => 0 < v) [2; 5])
    by (intros _; repeat constructor; lra).
  split; [exact Hp | exact (extract_rate_consistent "Rp" [2; 5] Hp)].
Defined.

(** ** The normalised errors *)

Lemma fold_right_div (l : list R) (m : R) :
  m <> 0 -> fold_right Rplus 0 (map (fun e => e / m) l) = fold_right Rplus 0 l / m.
Proof.
  intro Hm. induction l as [|x l IH]; simpl.
  - field. exact Hm.
  - rewrite IH. field. exact Hm.
Qed.

Lemma mean_sq_sqrt_norm (l : list R) :
  Forall (Rle 0) l -> 0 < np_mean l ->
  np_mean (map sq (map (fun e => nsqrt (e / np_mean l)) l)) = 1.
Proof.
  intros Hl Hm.
  assert (Hmdef : np_mean l = fold_right Rplus 0 l / INR (length l))
    by (unfold np_mean; rewrite np_sum_R; reflexivity).
  set (m := np_mean l) in *. clearbody m.
  rewrite map_map.
  assert (E : map (fun e => sq (nsqrt (e / m))) l = map (fun e => e / m) l).
  { apply map_ext_in. intros e He. rewrite Forall_forall in Hl.
    unfold sq. simpl. apply sqrt_sqrt.
    unfold Rdiv; apply Rmult_le_pos; [auto | left; apply Rinv_0_lt_compat; lra]. }
  rewrite E. unfold np_mean. rewrite np_sum_R, length_map, fold_right_div by lra.
  simpl.
  assert (Hn : INR (length l) <> 0).
  { intro Z. rewrite Z in Hmdef. unfold Rdiv in Hmdef. rewrite Rinv_0 in Hmdef. lra. }
  assert (HS : fold_right Rplus 0 l <> 0).
  { intro Z. rewrite Z in Hmdef. unfold Rdiv in Hmdef. lra. }
  rewrite Hmdef. field. split; assumption.
Qed.

(** For nonnegative errors with a positive mean, each array returned by
    [extract_err_norm] has mean square [1]: [mean(err_norm ** 2) = 1]. *)
Theorem extract_err_norm_mean_square (LambdaB_err EpsilonB_err : list R)
    (HL : Forall (Rle 0) LambdaB_err) (HLm : 0 < np_mean LambdaB_err)
    (HE : Forall (Rle 0) EpsilonB_err) (HEm : 0 < np_mean EpsilonB_err) :
  let '(LambdaB_err_norm, EpsilonB_err_norm) := extract_err_norm LambdaB_err EpsilonB_err in
  np_mean (map sq LambdaB_err_norm) = 1 /\ np_mean (map sq EpsilonB_err_norm) = 1.
Proof.
  unfold extract_err_norm. cbv zeta.
  split; apply mean_sq_sqrt_norm; assumption.
Qed.

Lemma extract_err_norm_mean_square_witness :
  Forall (Rle 0) [1; 3] /\ 0 < np_mean [1; 3] /\
  let '(LambdaB_err_norm, EpsilonB_err_norm) := extract_err_norm [1; 3] [2; 2] in
  np_mean (map sq LambdaB_err_norm) = 1 /\ np_mean (map sq EpsilonB_err_norm) = 1.
Proof.
  assert (H1 : Forall (Rle 0) [1; 3]) by (repeat constructor; lra).
  assert (H2 : Forall (Rle 0) [2; 2]) by (repeat constructor; lra).
  assert (M1 : 0 < np_mean (T := R) [1; 3]) by (unfold np_mean, np_sum; simpl; lra).
  assert (M2 : 0 < np_mean (T := R) [2; 2]) by (unfold np_mean, np_sum; simpl; lra).
  split; [exact H1|]. split; [exact M1|].
  exact (extract_err_norm_mean_square [1; 3] [2; 2] H1 M1 H2 M2).
Defined.

(** ** The solid partition coefficient *)

(** [calc_lambda] gives [LambdaB * numerator = 1e-3 * B/Ca * denom]
    (for nonzero solution species), and writes [LambdaB_eprop] exactly
    when the solid has a [B/Ca_eprop] column, with the relative error of
    [B/Ca]: [LambdaB_eprop / LambdaB = B/Ca_eprop / B/Ca]. *)
Theorem calc_lambda_relative_error (BCa : R) (BCa_eprop : option R) (numerator denom : R)
    (Hn : numerator <> 0) (Hd : denom <> 0) :
  let '(LambdaB, LambdaB_eprop) := Load.calc_lambda BCa BCa_eprop numerator denom in
  LambdaB * numerator = 1e-3 * BCa * denom /\
  match LambdaB_eprop, BCa_eprop with
  | Some le, Some e => le * BCa = LambdaB * e
  | None, None => True
  | _, _ => False
  end.
Proof.
  unfold Load.calc_lambda. simpl.
  split; [field; split; assumption|].
  destruct BCa_eprop as [e|]; [|exact I].
  field. split; assumption.
Qed.

Lemma calc_lambda_relative_error_witness :
  (0.4 : R) <> 0 /\ (2 : R) <> 0 /\
  let '(LambdaB, LambdaB_eprop) := Load.calc_lambda (T := R) 150 (Some 3) 0.4 2 in
  LambdaB * 0.4 = 1e-3 * 150 * 2 /\
  match LambdaB_eprop, Some (3 : R) with
  | Some le, Some e => le * 150 = LambdaB * e
  | None, None => True
  | _, _ => False
  end.
Proof.
  assert (Hn : (0.4 : R) <> 0) by lra.
  assert (Hd : (2 : R) <> 0) by lra.
  split; [exact Hn|]. split; [exact Hd|].
  exact (calc_lambda_relative_error 150 (Some 3) 0.4 2 Hn Hd).
Defined.
